(** * cudaMemTest: a shallow embedding of [gcm/health_checks/cuda/cudaMemTest.c]

    The C program is a single translation unit: three helpers that look up
    flags in [argv] ([stringRemoveDelimiter], [checkCmdLineFlag],
    [getCmdLineArgumentInt]) and [main], which selects a device, queries its
    memory, clamps the requested size to 90% of the free memory and then
    allocates, fills and frees one device buffer.

    Conventions of the embedding (LP64 Linux, the platform the tool is built
    for): [int] is 32 bits, [long] and [size_t] are 64 bits, [double] is IEEE
    754 binary64 with round-to-nearest-even.  A C string is represented by the
    characters before its terminating NUL; argument strings are shorter than
    2^31 characters, so that [(int)strlen(s)] is the length. *)

From Stdlib Require Import ZArith List Bool Lia.
From Stdlib Require Import Strings.String Strings.Ascii.
From Stdlib Require Import Numbers.DecimalString.
From Stdlib Require Import Numbers.DecimalPos.
From Stdlib Require Import Floats.SpecFloat.
Import ListNotations.

Local Open Scope string_scope.
Local Open Scope Z_scope.

(** ** Machine integers *)

Module Int.

(** Two's complement reading of the low [w] bits of [z]. *)
Definition signed (w : Z) (z : Z) : Z :=
  (z + 2 ^ (w - 1)) mod 2 ^ w - 2 ^ (w - 1).

(** Unsigned reading of the low [w] bits of [z]. *)
Definition unsigned (w : Z) (z : Z) : Z := z mod 2 ^ w.

Definition to_int (z : Z) : Z := signed 32 z.
Definition to_long (z : Z) : Z := signed 64 z.
Definition to_size_t (z : Z) : Z := unsigned 64 z.

Definition INT_MAX : Z := 2 ^ 31 - 1.
Definition INT_MIN : Z := - 2 ^ 31.
Definition LONG_MAX : Z := 2 ^ 63 - 1.
Definition LONG_MIN : Z := - 2 ^ 63.
Definition SIZE_MAX : Z := 2 ^ 64 - 1.

End Int.

(** ** The C library functions the helpers call *)

Module Libc.

Definition code (c : ascii) : Z := Z.of_nat (nat_of_ascii c).

(** [tolower] in the C locale: only 'A'..'Z' change. *)
Definition tolower (c : ascii) : ascii :=
  if (65 <=? code c) && (code c <=? 90)
  then ascii_of_nat (nat_of_ascii c + 32)
  else c.

(** [isspace] in the C locale: space, \t, \n, \v, \f, \r. *)
Definition isspace (c : ascii) : bool :=
  (code c =? 32) || ((9 <=? code c) && (code c <=? 13)).

Definition isdigit (c : ascii) : bool :=
  (48 <=? code c) && (code c <=? 57).

Definition strlen (s : string) : Z := Z.of_nat (String.length s).

(** [&s[n]]: the string that starts [n] characters into [s]. *)
Fixpoint advance (n : nat) (s : string) : string :=
  match n, s with
  | O, _ => s
  | S n', String _ t => advance n' t
  | S _, EmptyString => EmptyString
  end.

(** [s[n]], with the terminating NUL read at the end of the string. *)
Definition char_at (s : string) (n : nat) : ascii :=
  match advance n s with
  | String c _ => c
  | EmptyString => zero
  end.

(** [strchr(s, c)] as the offset of the first occurrence, if any. *)
Fixpoint strchr (s : string) (c : ascii) : option nat :=
  match s with
  | EmptyString => None
  | String a t =>
      if Ascii.eqb a c then Some O
      else match strchr t c with
           | Some k => Some (S k)
           | None => None
           end
  end.

(** [strncasecmp(s1, s2, n)]: compares at most [n] characters after
    [tolower], stops at the first difference or at the end of [s1]. *)
Fixpoint strncasecmp (s1 s2 : string) (n : nat) {struct n} : Z :=
  match n with
  | O => 0
  | S n' =>
      match s1, s2 with
      | EmptyString, EmptyString => 0
      | EmptyString, String c2 _ => 0 - code (tolower c2)
      | String c1 _, EmptyString => code (tolower c1)
      | String c1 t1, String c2 t2 =>
          if Ascii.eqb (tolower c1) (tolower c2)
          then strncasecmp t1 t2 n'
          else code (tolower c1) - code (tolower c2)
      end
  end.

Fixpoint skip_spaces (s : string) : string :=
  match s with
  | String c t => if isspace c then skip_spaces t else s
  | EmptyString => s
  end.

(** The value of the leading run of decimal digits of [s], on top of
    [acc]. *)
Fixpoint digits_value (s : string) (acc : Z) : Z :=
  match s with
  | String c t =>
      if isdigit c then digits_value t (10 * acc + (code c - 48)) else acc
  | EmptyString => acc
  end.

(** [strtol(s, NULL, 10)]: white space, an optional sign, digits; the
    result saturates at [LONG_MIN] and [LONG_MAX]. *)
Definition strtol (s : string) : Z :=
  match skip_spaces s with
  | String "-"%char t => Z.max Int.LONG_MIN (- digits_value t 0)
  | String "+"%char t => Z.min Int.LONG_MAX (digits_value t 0)
  | s' => Z.min Int.LONG_MAX (digits_value s' 0)
  end.

(** [atoi(s)] is [(int) strtol(s, NULL, 10)].  The C standard leaves the
    result undefined when the value does not fit an [int]; glibc truncates
    the saturated [long], and the model follows it. *)
Definition atoi (s : string) : Z := Int.to_int (strtol s).

(** printf's [%ld] and [%lu] applied to a 64-bit argument. *)
Definition fmt_ld (z : Z) : string := NilZero.string_of_int (Z.to_int (Int.to_long z)).
Definition fmt_lu (z : Z) : string := NilZero.string_of_int (Z.to_int (Int.to_size_t z)).

End Libc.

Import Libc.

(** ** The argument helpers *)

(** Number of leading characters of [s] equal to [delimiter]: the value of
    [string_start] when the [while] loop of [stringRemoveDelimiter] ends. *)
Fixpoint count_leading (delimiter : ascii) (s : string) : nat :=
  match s with
  | String c t => if Ascii.eqb c delimiter then S (count_leading delimiter t) else O
  | EmptyString => O
  end.

Definition stringRemoveDelimiter (delimiter : ascii) (s : string) : Z :=
  let string_start := Z.of_nat (count_leading delimiter s) in
  if string_start >=? strlen s - 1 then 0 else string_start.

(** The body of the [for] loop of [checkCmdLineFlag] for one [argv[i]]:
    whether it sets [bFound]. *)
Definition flag_matches (string_ref : string) (arg : string) : bool :=
  let string_start := stringRemoveDelimiter "-" arg in
  let string_argv := advance (Z.to_nat string_start) arg in
  let argv_length :=
    match strchr string_argv "=" with
    | None => strlen string_argv
    | Some equal_pos => Z.of_nat equal_pos
    end in
  let length := strlen string_ref in
  (length =? argv_length) &&
  (strncasecmp string_argv string_ref (Z.to_nat length) =? 0).

(** [argv] holds [argc] strings, [argv[0]] being the program name; the loop
    runs over [argv[1]] .. [argv[argc-1]]. *)
Definition checkCmdLineFlag (argv : list string) (string_ref : string) : bool :=
  fold_left (fun bFound arg => if flag_matches string_ref arg then true else bFound)
            (tl argv) false.

(** The body of the [for] loop of [getCmdLineArgumentInt] for one
    [argv[i]]: [Some value] when the argument sets [bFound] and [value]. *)
Definition arg_int_value (string_ref : string) (arg : string) : option Z :=
  let string_start := stringRemoveDelimiter "-" arg in
  let string_argv := advance (Z.to_nat string_start) arg in
  let length := strlen string_ref in
  if strncasecmp string_argv string_ref (Z.to_nat length) =? 0 then
    if length + 1 <=? strlen string_argv then
      let auto_inc :=
        if Ascii.eqb (char_at string_argv (Z.to_nat length)) "=" then 1 else 0 in
      Some (atoi (advance (Z.to_nat (length + auto_inc)) string_argv))
    else Some 0
  else None.

Definition getCmdLineArgumentInt (argv : list string) (string_ref : string) : Z :=
  let '(bFound, value) :=
    fold_left (fun st arg =>
                 match arg_int_value string_ref arg with
                 | Some v => (true, v)
                 | None => st
                 end)
              (tl argv) (false, -1) in
  if bFound : bool then value else 0.

(** ** Doubles

    [0.1 * free_memory] is computed in binary64.  The operations are the ones
    of the Standard Library's IEEE 754 specification, at precision 53. *)

Module Double.

Definition prec : Z := 53.
Definition emax : Z := 1024.

(** Conversion of an unsigned 64-bit integer to [double]. *)
Definition of_size_t (n : Z) : spec_float := binary_normalize prec emax n 0 false.

Definition mul (x y : spec_float) : spec_float := SFmul prec emax x y.

(** The literal [0.1]: the double nearest to one tenth,
    7205759403792794 * 2^-56. *)
Definition point_one : spec_float := S754_finite false 7205759403792794 (-56).

(** [(size_t) x]: truncation toward zero.  C defines it only when the
    truncated value fits; the other cases are not reached by [main] and
    give 0 here. *)
Definition to_size_t (x : spec_float) : Z :=
  match x with
  | S754_finite false m e =>
      let t := Z.shiftl (Zpos m) e in
      if t <=? Int.SIZE_MAX then t else 0
  | _ => 0
  end.

End Double.

(** ** The allocation policy (lines 134-151 of the source) *)

Definition DEFAULT_ALLOC_MEM_IN_GB : Z := 1.
Definition MAX_ALLOC_MEM_IN_GB : Z := 80.
Definition ALLOC_MEM_OPT_STR : string := "alloc_mem_gb".

(** [alloc_mem_gb] after the assignment of the [int] result of
    [getCmdLineArgumentInt] to a [size_t]. *)
Definition alloc_mem_gb_of_int (value : Z) : Z := Int.to_size_t value.

(** [requested_size] computed from a parsed [alloc_mem_gb] (lines 139-142);
    the multiplications are in [size_t]. *)
Definition requested_of_gb (alloc_mem_gb : Z) : Z :=
  let alloc_mem_gb :=
    if alloc_mem_gb =? 0 then DEFAULT_ALLOC_MEM_IN_GB else alloc_mem_gb in
  Int.to_size_t (alloc_mem_gb * 1000 * 1000 * 1000).

(** [requested_size] before the clamp (its value at line 143). *)
Definition requested_size (argv : list string) : Z :=
  if checkCmdLineFlag argv ALLOC_MEM_OPT_STR
  then requested_of_gb
         (alloc_mem_gb_of_int (getCmdLineArgumentInt argv ALLOC_MEM_OPT_STR))
  else DEFAULT_ALLOC_MEM_IN_GB * 1000 * 1000 * 1000.

(** [(size_t)(0.1 * free_memory)]. *)
Definition tenth_of (free_memory : Z) : Z :=
  Double.to_size_t (Double.mul Double.point_one (Double.of_size_t free_memory)).

(** [max_alloc_size = free_memory - (size_t)(0.1 * free_memory)]. *)
Definition max_alloc_size (free_memory : Z) : Z :=
  Int.to_size_t (free_memory - tenth_of free_memory).

(** [requested_size] after the clamp: the size passed to [cudaMalloc]. *)
Definition effective_size (requested free_memory : Z) : Z :=
  if requested >? max_alloc_size free_memory
  then max_alloc_size free_memory
  else requested.

(** ** The CUDA runtime, as seen by [main]

    The runtime is external to the program: a run is determined by [argv] and
    by what each runtime call answers. *)

Definition cudaError_t : Type := Z.
Definition cudaSuccess : cudaError_t := 0.

Record Runtime : Type := {
  cudaSetDevice : Z -> cudaError_t;
  (** status, then the contents of [free_memory] and [total_memory] after
      the call: the reported sizes on success; on failure whatever the two
      locals hold, since [main] does not initialise them *)
  cudaMemGetInfo : cudaError_t * (Z * Z);
  (** status and the device pointer stored in [d_A] *)
  cudaMalloc : Z -> cudaError_t * Z;
  cudaMemset : Z -> Z -> Z -> cudaError_t;
  cudaFree : Z -> cudaError_t;
  cudaGetErrorString : cudaError_t -> string
}.

(** What a run does, in order: output on the two streams and runtime calls. *)
Inductive event : Type :=
| Stdout (s : string)
| Stderr (s : string)
| CallSetDevice (device : Z)
| CallMemGetInfo
| CallMalloc (size : Z)
| CallMemset (ptr value count : Z)
| CallFree (ptr : Z)
| CallGetErrorString (err : cudaError_t).

(** ** A small monad for [main]: a trace of events, and early [return] *)

Inductive outcome (A : Type) : Type :=
| Next (a : A)
| Exit (status : Z).
Arguments Next {A} a.
Arguments Exit {A} status.

Definition prog (A : Type) : Type := outcome A * list event.

Definition ret {A} (a : A) : prog A := (Next a, []).

Definition bind {A B} (m : prog A) (k : A -> prog B) : prog B :=
  match m with
  | (Next a, t) => let '(r, t') := k a in (r, (t ++ t')%list)
  | (Exit status, t) => (Exit status, t)
  end.

Definition emit (e : event) : prog unit := (Next tt, [e]).
Definition return_ {A} (status : Z) : prog A := (Exit status, []).
Definition call {A} (e : event) (answer : A) : prog A := (Next answer, [e]).

Declare Scope prog_scope.
Delimit Scope prog_scope with prog.
Notation "x <- m ;; k" := (bind m (fun x => k))
  (at level 61, m at next level, right associativity) : prog_scope.
Notation "m ;; k" := (bind m (fun _ => k))
  (at level 61, right associativity) : prog_scope.
Notation "'when' c 'then' m 'fi'" := (if c then m else ret tt)
  (at level 0, c at level 200, m at level 200) : prog_scope.

Definition printf (s : string) : prog unit := emit (Stdout s).
Definition fprintf_stderr (s : string) : prog unit := emit (Stderr s).

Definition EXIT_SUCCESS : Z := 0.
Definition EXIT_FAILURE : Z := 1.

Definition nl : string := String (ascii_of_nat 10) EmptyString.

Section Main.

Variable rt : Runtime.

Definition error_string (err : cudaError_t) : prog string :=
  call (CallGetErrorString err) (cudaGetErrorString rt err).

Local Open Scope prog_scope.

Definition main_body (argv : list string) : prog Z :=
  when checkCmdLineFlag argv "help" || checkCmdLineFlag argv "?" then
    printf ("A simple cuda memory testing tool" ++ nl) ;;
    printf ("Usage --device=n (n >= 0 for deviceID)," ++ nl) ;;
    printf ("      --" ++ ALLOC_MEM_OPT_STR ++ "=k (allocates k GB)" ++ nl) ;;
    return_ EXIT_SUCCESS
  fi ;;
  (if checkCmdLineFlag argv "device" then
     let devID := getCmdLineArgumentInt argv "device" in
     ret_ <- call (CallSetDevice devID) (cudaSetDevice rt devID) ;;
     when negb (ret_ =? cudaSuccess) then
       printf ("Invalid device id or device already in use" ++ nl) ;;
       return_ EXIT_FAILURE
     fi
   else
     printf ("A simple cuda memory testing tool" ++ nl) ;;
     printf ("Usage --device=n (n >= 0 for deviceID)" ++ nl) ;;
     printf ("      --" ++ ALLOC_MEM_OPT_STR ++ "=k (allocates k GB)" ++ nl) ;;
     return_ EXIT_SUCCESS) ;;
  info <- call CallMemGetInfo (cudaMemGetInfo rt) ;;
  let ret_ := fst info in
  let free_memory := Int.to_size_t (fst (snd info)) in
  let total_memory := Int.to_size_t (snd (snd info)) in
  when ret_ =? cudaSuccess then
    printf ("free mem " ++ fmt_ld free_memory ++ " total mem "
              ++ fmt_ld total_memory ++ " " ++ nl)
  fi ;;
  when checkCmdLineFlag argv ALLOC_MEM_OPT_STR then
    printf ("alloc "
              ++ fmt_ld (alloc_mem_gb_of_int
                           (getCmdLineArgumentInt argv ALLOC_MEM_OPT_STR))
              ++ " " ++ nl)
  fi ;;
  let requested := requested_size argv in
  when requested >? max_alloc_size free_memory then
    printf ("Invalid allocation amount specified, using "
              ++ fmt_lu (max_alloc_size free_memory) ++ nl)
  fi ;;
  let requested := effective_size requested free_memory in
  alloc <- call (CallMalloc requested) (cudaMalloc rt requested) ;;
  let d_A := snd alloc in
  when negb (fst alloc =? cudaSuccess) then
    msg <- error_string (fst alloc) ;;
    fprintf_stderr ("Test failed (error code " ++ msg ++ ")!" ++ nl) ;;
    return_ EXIT_FAILURE
  fi ;;
  err <- call (CallMemset d_A 15 requested) (cudaMemset rt d_A 15 requested) ;;
  when negb (err =? cudaSuccess) then
    msg <- error_string err ;;
    fprintf_stderr ("Test failed in setting mem(error code " ++ msg ++ ")!" ++ nl) ;;
    return_ EXIT_FAILURE
  fi ;;
  err <- call (CallFree d_A) (cudaFree rt d_A) ;;
  when negb (err =? cudaSuccess) then
    msg <- error_string err ;;
    fprintf_stderr ("Failed to free device vector A (error code " ++ msg ++ ")!" ++ nl) ;;
    return_ EXIT_FAILURE
  fi ;;
  printf ("CUDA memory test PASSED" ++ nl) ;;
  return_ EXIT_SUCCESS.

(** The exit status and the trace of a run. *)
Definition main (argv : list string) : Z * list event :=
  match main_body argv with
  | (Next status, t) => (status, t)
  | (Exit status, t) => (status, t)
  end.

End Main.

Definition exit_status (r : Z * list event) : Z := fst r.
Definition trace (r : Z * list event) : list event := snd r.

Definition is_call (e : event) : bool :=
  match e with
  | Stdout _ | Stderr _ => false
  | _ => true
  end.

(** The runtime calls of a trace, the text written to stdout, and to stderr. *)
Definition calls (t : list event) : list event := filter is_call t.

Fixpoint stdout (t : list event) : string :=
  match t with
  | Stdout s :: t' => s ++ stdout t'
  | _ :: t' => stdout t'
  | [] => ""
  end.

Fixpoint stderr (t : list event) : string :=
  match t with
  | Stderr s :: t' => s ++ stderr t'
  | _ :: t' => stderr t'
  | [] => ""
  end.

(** A runtime on which every call succeeds, on a device with [free] bytes
    free out of [total]. *)
Definition healthy_runtime (free total : Z) : Runtime :=
  {| cudaSetDevice := fun _ => cudaSuccess;
     cudaMemGetInfo := (cudaSuccess, (free, total));
     cudaMalloc := fun _ => (cudaSuccess, 4096);
     cudaMemset := fun _ _ _ => cudaSuccess;
     cudaFree := fun _ => cudaSuccess;
     cudaGetErrorString := fun _ => "no error" |}.

(** ** Vocabulary of the properties *)

Fixpoint dashes (k : nat) : string :=
  match k with
  | O => ""
  | S k' => String "-" (dashes k')
  end.

(** [s] with every character passed through [tolower]. *)
Fixpoint lower (s : string) : string :=
  match s with
  | String c t => String (tolower c) (lower t)
  | EmptyString => EmptyString
  end.

(** What follows the name in a flag token: nothing, or [=] and a value. *)
Definition flag_tail (rest : string) : Prop :=
  rest = "" \/ exists value, rest = String "=" value.

(** The three [printf]s of the help path, and of the path taken when no
    device flag is given (the second line differs by a comma). *)
Definition help_usage : list event :=
  [Stdout ("A simple cuda memory testing tool" ++ nl);
   Stdout ("Usage --device=n (n >= 0 for deviceID)," ++ nl);
   Stdout ("      --alloc_mem_gb=k (allocates k GB)" ++ nl)].

Definition no_device_usage : list event :=
  [Stdout ("A simple cuda memory testing tool" ++ nl);
   Stdout ("Usage --device=n (n >= 0 for deviceID)" ++ nl);
   Stdout ("      --alloc_mem_gb=k (allocates k GB)" ++ nl)].

Definition invalid_device_message : string :=
  "Invalid device id or device already in use" ++ nl.

Definition passed_message : string := "CUDA memory test PASSED" ++ nl.

Section RunViews.

Variables (rt : Runtime) (argv : list string).

(** The condition of the first [if] of [main]. *)
Definition help_requested : bool :=
  checkCmdLineFlag argv "help" || checkCmdLineFlag argv "?".

Definition devID : Z := getCmdLineArgumentInt argv "device".

(** The locals [free_memory] and [total_memory] after the memory query. *)
Definition free_memory : Z := Int.to_size_t (fst (snd (cudaMemGetInfo rt))).
Definition total_memory : Z := Int.to_size_t (snd (snd (cudaMemGetInfo rt))).

(** The size passed to [cudaMalloc] and [cudaMemset]. *)
Definition alloc_size : Z := effective_size (requested_size argv) free_memory.

(** The device pointer [d_A]. *)
Definition d_A : Z := snd (cudaMalloc rt alloc_size).

(** What is printed between the memory query and the allocation. *)
Definition size_report : list event :=
  ((if fst (cudaMemGetInfo rt) =? cudaSuccess
    then [Stdout ("free mem " ++ fmt_ld free_memory ++ " total mem "
                    ++ fmt_ld total_memory ++ " " ++ nl)]
    else [])
   ++ (if checkCmdLineFlag argv ALLOC_MEM_OPT_STR
       then [Stdout ("alloc "
                       ++ fmt_ld (alloc_mem_gb_of_int
                                    (getCmdLineArgumentInt argv ALLOC_MEM_OPT_STR))
                       ++ " " ++ nl)]
       else [])
   ++ (if requested_size argv >? max_alloc_size free_memory
       then [Stdout ("Invalid allocation amount specified, using "
                       ++ fmt_lu (max_alloc_size free_memory) ++ nl)]
       else []))%list.

(** The trace of a run up to and including the call of [cudaMalloc]. *)
Definition trace_to_malloc : list event :=
  (CallSetDevice devID :: CallMemGetInfo :: size_report
     ++ [CallMalloc alloc_size])%list.

End RunViews.

(** [out] ends with the line [line]: the line and its newline come last,
    after nothing or after a complete line. *)
Definition ends_nl (s : string) : Prop := exists p, s = p ++ nl.

Definition final_line (out line : string) : Prop :=
  exists pre, out = pre ++ line ++ nl /\ (pre = "" \/ ends_nl pre).

(** A run in which [cudaSetDevice] is called and answers an error, and one
    in which it is called and answers [cudaSuccess]. *)
Definition device_selection_fails (rt : Runtime) (argv : list string) : Prop :=
  exists dev, In (CallSetDevice dev) (trace (main rt argv))
              /\ cudaSetDevice rt dev <> cudaSuccess.

Definition device_selected (rt : Runtime) (argv : list string) : Prop :=
  exists dev, In (CallSetDevice dev) (trace (main rt argv))
              /\ cudaSetDevice rt dev = cudaSuccess.

(** A runtime that answers the given status to each kind of call, on a
    device with [free] bytes free out of [total]. *)
Definition scripted_runtime
    (e_set e_query e_alloc e_fill e_free : cudaError_t) (free total : Z) : Runtime :=
  {| cudaSetDevice := fun _ => e_set;
     cudaMemGetInfo := (e_query, (free, total));
     cudaMalloc := fun _ => (e_alloc, 4096);
     cudaMemset := fun _ _ _ => e_fill;
     cudaFree := fun _ => e_free;
     cudaGetErrorString := fun e => if e =? 2 then "out of memory" else "unspecified launch failure" |}.

(** The ceiling in the words of the specification, in exact integer
    arithmetic: [freeBytes - floor(0.10 * freeBytes)]. *)
Definition ceiling_spec (freeBytes : Z) : Z := freeBytes - freeBytes / 10.

(** The size passed to the allocation for a parsed [requestedGb] (the [int]
    returned by [getCmdLineArgumentInt]) and a given [free_memory]. *)
Definition effective_of_gb (requestedGb free_memory : Z) : Z :=
  effective_size (requested_of_gb (alloc_mem_gb_of_int requestedGb)) free_memory.

(** The value [getCmdLineArgumentInt] reads from what follows the flag name
    in an argument: 0 when nothing follows, else [atoi] of the rest, after
    one [=] if the rest starts with it. *)
Definition value_after (rest : string) : Z :=
  match rest with
  | EmptyString => 0
  | String c v => if Ascii.eqb c "=" then atoi v else atoi rest
  end.

(** The value of a decimal numeral read from the left on top of [acc]. *)
Fixpoint uint_value (d : Decimal.uint) (acc : Z) : Z :=
  match d with
  | Decimal.Nil => acc
  | Decimal.D0 d => uint_value d (10 * acc)
  | Decimal.D1 d => uint_value d (10 * acc + 1)
  | Decimal.D2 d => uint_value d (10 * acc + 2)
  | Decimal.D3 d => uint_value d (10 * acc + 3)
  | Decimal.D4 d => uint_value d (10 * acc + 4)
  | Decimal.D5 d => uint_value d (10 * acc + 5)
  | Decimal.D6 d => uint_value d (10 * acc + 6)
  | Decimal.D7 d => uint_value d (10 * acc + 7)
  | Decimal.D8 d => uint_value d (10 * acc + 8)
  | Decimal.D9 d => uint_value d (10 * acc + 9)
  end.

(** * Properties *)

(** ** Sanity checks of the model on concrete inputs *)

Example ex_flag1 : checkCmdLineFlag ["prog"; "--Device=2"] "device" = true.
Proof. reflexivity. Qed.
Example ex_flag2 : checkCmdLineFlag ["prog"; "-?"] "?" = false.
Proof. reflexivity. Qed.
Example ex_flag3 : checkCmdLineFlag ["prog"; "?"] "?" = true.
Proof. reflexivity. Qed.
Example ex_int1 : getCmdLineArgumentInt ["prog"; "--alloc_mem_gb=5"] "alloc_mem_gb" = 5.
Proof. reflexivity. Qed.
Example ex_int2 : getCmdLineArgumentInt ["prog"; "--device3"] "device" = 3.
Proof. reflexivity. Qed.
Example ex_int3 : getCmdLineArgumentInt ["prog"; "--device=-7"; "--device= +12x"] "device" = 12.
Proof. reflexivity. Qed.
Example ex_fmt : fmt_ld (2^64 - 1) = "-1" /\ fmt_lu (2^64 - 1) = "18446744073709551615" /\ fmt_ld 0 = "0".
Proof. repeat split; vm_compute; reflexivity. Qed.

Example point_one_is_nearest_tenth :
  SFdiv Double.prec Double.emax (Double.of_size_t 1) (Double.of_size_t 10)
  = Double.point_one.
Proof. vm_compute. reflexivity. Qed.

Example run_default_10GB :
  main (healthy_runtime 10000000000 16000000000) ["cudaMemTest"; "--device=0"]
  = (0, [CallSetDevice 0; CallMemGetInfo;
         Stdout ("free mem 10000000000 total mem 16000000000 " ++ nl);
         CallMalloc 1000000000; CallMemset 4096 15 1000000000; CallFree 4096;
         Stdout ("CUDA memory test PASSED" ++ nl)]).
Proof. vm_compute. reflexivity. Qed.

Example run_clamped_50GB :
  main (healthy_runtime 10000000000 16000000000)
       ["cudaMemTest"; "--device=0"; "--alloc_mem_gb=50"]
  = (0, [CallSetDevice 0; CallMemGetInfo;
         Stdout ("free mem 10000000000 total mem 16000000000 " ++ nl);
         Stdout ("alloc 50 " ++ nl);
         Stdout ("Invalid allocation amount specified, using 9000000000" ++ nl);
         CallMalloc 9000000000; CallMemset 4096 15 9000000000; CallFree 4096;
         Stdout ("CUDA memory test PASSED" ++ nl)]).
Proof. vm_compute. reflexivity. Qed.

(** ** Strings *)

Lemma length_append (a b : string) :
  String.length (a ++ b) = (String.length a + String.length b)%nat.
Proof. induction a as [|c a IH]; simpl; [reflexivity | now rewrite IH]. Qed.

Lemma length_dashes (k : nat) : String.length (dashes k) = k.
Proof. induction k as [|k IH]; simpl; [reflexivity | now rewrite IH]. Qed.

Lemma length_lower (s : string) : String.length (lower s) = String.length s.
Proof. induction s as [|c s IH]; simpl; [reflexivity | now rewrite IH]. Qed.

Lemma lower_length_eq (a b : string) :
  lower a = lower b -> String.length a = String.length b.
Proof.
  intros H. rewrite <- (length_lower a), <- (length_lower b). now rewrite H.
Qed.

Lemma count_leading_dashes (k : nat) (s : string) :
  count_leading "-" (dashes k ++ s) = (k + count_leading "-" s)%nat.
Proof. induction k as [|k IH]; simpl; [reflexivity | now rewrite IH]. Qed.

Lemma advance_dashes (k : nat) (s : string) : advance k (dashes k ++ s) = s.
Proof. induction k as [|k IH]; simpl; [reflexivity | exact IH]. Qed.

Lemma code_tolower_upper (c : ascii) :
  65 <= code c <= 90 -> code (tolower c) = code c + 32.
Proof.
  intros H. unfold tolower.
  replace ((65 <=? code c) && (code c <=? 90)) with true
    by (symmetry; apply andb_true_iff; split; apply Z.leb_le; lia).
  unfold code in *. rewrite nat_ascii_embedding by lia. lia.
Qed.

Lemma tolower_not_upper (c : ascii) :
  (code c <? 65) || (90 <? code c) = true -> tolower c = c.
Proof.
  intros H. unfold tolower.
  destruct ((65 <=? code c) && (code c <=? 90)) eqn:E; [|reflexivity].
  apply andb_true_iff in E. destruct E as [E1 E2].
  apply Z.leb_le in E1. apply Z.leb_le in E2.
  apply orb_true_iff in H. destruct H as [H|H]; apply Z.ltb_lt in H; lia.
Qed.

(** A character that is not a letter is the image under [tolower] of itself
    only. *)
Lemma tolower_eq_char (c d : ascii) :
  (code d <? 65) || (90 <? code d) = true ->
  (code d <? 97) || (122 <? code d) = true ->
  tolower c = tolower d -> c = d.
Proof.
  intros Hd1 Hd2 H. rewrite (tolower_not_upper d Hd1) in H.
  destruct ((65 <=? code c) && (code c <=? 90)) eqn:E.
  - apply andb_true_iff in E. destruct E as [E1 E2].
    apply Z.leb_le in E1. apply Z.leb_le in E2.
    pose proof (code_tolower_upper c (conj E1 E2)) as Hc. rewrite H in Hc.
    apply orb_true_iff in Hd2. destruct Hd2 as [Hd|Hd]; apply Z.ltb_lt in Hd; lia.
  - unfold tolower in H. now rewrite E in H.
Qed.

Lemma strchr_lower_none (name ref : string) (c : ascii) :
  (code c <? 65) || (90 <? code c) = true ->
  (code c <? 97) || (122 <? code c) = true ->
  lower name = lower ref -> strchr ref c = None -> strchr name c = None.
Proof.
  intros H1 H2. revert ref.
  induction name as [|a name IH]; intros [|b ref] Hl Hr; simpl in *;
    try reflexivity; try discriminate.
  injection Hl as Hab Hl.
  destruct (Ascii.eqb b c) eqn:Ebc; [discriminate|].
  destruct (strchr ref c) eqn:Er; [discriminate|].
  rewrite (IH ref Hl Er).
  destruct (Ascii.eqb a c) eqn:Eac; [|reflexivity].
  apply Ascii.eqb_eq in Eac. subst a.
  symmetry in Hab. apply (tolower_eq_char b c H1 H2) in Hab.
  subst b. now rewrite Ascii.eqb_refl in Ebc.
Qed.

Lemma strchr_append_none (a b : string) (c : ascii) :
  strchr a c = None ->
  strchr (a ++ b) c =
    match strchr b c with
    | Some k => Some (String.length a + k)%nat
    | None => None
    end.
Proof.
  induction a as [|x a IH]; simpl; intros H.
  - now destruct (strchr b c).
  - destruct (Ascii.eqb x c); [discriminate|].
    destruct (strchr a c) eqn:Ea; [discriminate|].
    rewrite (IH eq_refl). now destruct (strchr b c).
Qed.

Lemma strncasecmp_prefix (name ref rest : string) :
  lower name = lower ref ->
  strncasecmp (name ++ rest) ref (String.length ref) = 0.
Proof.
  revert ref.
  induction name as [|a name IH]; intros [|b ref] Hl; simpl in *;
    try reflexivity; try discriminate.
  injection Hl as Hab Hl.
  rewrite Hab, Ascii.eqb_refl. now apply IH.
Qed.

Lemma count_leading_lower (name ref : string) :
  lower name = lower ref ->
  count_leading "-" ref = O -> name <> "" -> count_leading "-" name = O.
Proof.
  destruct name as [|a name]; [congruence|].
  destruct ref as [|b ref]; [discriminate|].
  simpl. intros Hl Hr _. injection Hl as Hab _.
  destruct (Ascii.eqb b "-") eqn:Eb; [discriminate|].
  destruct (Ascii.eqb a "-") eqn:Ea; [|reflexivity].
  apply Ascii.eqb_eq in Ea. subst a.
  symmetry in Hab. apply (tolower_eq_char b "-" eq_refl eq_refl) in Hab.
  subst b. discriminate.
Qed.

Lemma count_leading_append (a b : string) :
  a <> "" -> count_leading "-" a = O -> count_leading "-" (a ++ b) = O.
Proof.
  destruct a as [|x a]; [congruence|]. simpl. intros _.
  now destruct (Ascii.eqb x "-").
Qed.

(** The delimiter is stripped from a token made of [k] dashes and a body of
    two characters or more that does not start with a dash. *)
Lemma stringRemoveDelimiter_dashes (k : nat) (body : string) :
  count_leading "-" body = O ->
  (k = O \/ (2 <= String.length body)%nat) ->
  stringRemoveDelimiter "-" (dashes k ++ body) = Z.of_nat k.
Proof.
  intros Hb Hk. unfold stringRemoveDelimiter, strlen.
  rewrite count_leading_dashes, Hb, length_append, length_dashes, Nat.add_0_r.
  destruct (Z.of_nat k >=? Z.of_nat (k + String.length body) - 1) eqn:E;
    [|reflexivity].
  apply Z.geb_le in E. destruct Hk as [->|Hk]; [reflexivity | lia].
Qed.

(** The matching rule of [checkCmdLineFlag], for every flag name without
    [=] that does not start with a dash: a token made of any number of
    dashes, the name in any letter case, and then nothing or [=value], sets
    [bFound]; the one exception (excluded by the second hypothesis) is a
    token with dashes whose body is a single character. *)
Lemma flag_matches_token (ref name rest : string) (k : nat) :
  lower name = lower ref ->
  strchr ref "=" = None ->
  count_leading "-" ref = O ->
  flag_tail rest ->
  (k = O \/ (2 <= String.length name + String.length rest)%nat) ->
  flag_matches ref (dashes k ++ name ++ rest) = true.
Proof.
  intros Hl Heq Hdash Hrest Hk.
  assert (Hlen : String.length name = String.length ref)
    by now apply lower_length_eq.
  assert (Hbody : count_leading "-" (name ++ rest) = O).
  { destruct name as [|a name].
    - destruct Hrest as [->|[v ->]]; reflexivity.
    - apply count_leading_append; [discriminate|].
      apply (count_leading_lower _ ref); auto; discriminate. }
  unfold flag_matches.
  rewrite stringRemoveDelimiter_dashes by (rewrite ?length_append; auto).
  rewrite Nat2Z.id, advance_dashes.
  rewrite (strchr_append_none name rest "=")
    by (apply (strchr_lower_none name ref "=" eq_refl eq_refl); auto).
  unfold strlen. rewrite Nat2Z.id, strncasecmp_prefix by exact Hl.
  rewrite andb_true_r.
  destruct Hrest as [->|[v ->]]; simpl.
  - rewrite length_append. simpl. rewrite Nat.add_0_r, Hlen. apply Z.eqb_refl.
  - rewrite Nat.add_0_r, Hlen. apply Z.eqb_refl.
Qed.

(** [checkCmdLineFlag] is true as soon as one argument after [argv[0]]
    matches. *)
Lemma fold_flag_true (ref : string) (args : list string) :
  fold_left (fun bFound arg => if flag_matches ref arg then true else bFound)
            args true = true.
Proof.
  induction args as [|a args IH]; simpl; [reflexivity|].
  now destruct (flag_matches ref a).
Qed.

Lemma checkCmdLineFlag_existsb (argv : list string) (ref : string) :
  checkCmdLineFlag argv ref = existsb (flag_matches ref) (tl argv).
Proof.
  unfold checkCmdLineFlag.
  induction (tl argv) as [|a args IH]; simpl; [reflexivity|].
  destruct (flag_matches ref a); simpl; [apply fold_flag_true | exact IH].
Qed.

Lemma checkCmdLineFlag_In (argv : list string) (ref arg : string) :
  In arg (tl argv) -> flag_matches ref arg = true ->
  checkCmdLineFlag argv ref = true.
Proof.
  intros Hin Hm. rewrite checkCmdLineFlag_existsb.
  apply existsb_exists. now exists arg.
Qed.

(** The loop of [getCmdLineArgumentInt] leaves [bFound] false when no
    argument matches. *)
Lemma fold_int_none (ref : string) (args : list string) (st : bool * Z) :
  (forall arg, In arg args -> arg_int_value ref arg = None) ->
  fold_left (fun st arg =>
               match arg_int_value ref arg with
               | Some v => (true, v)
               | None => st
               end) args st = st.
Proof.
  revert st. induction args as [|a args IH]; intros st H; simpl; [reflexivity|].
  rewrite (H a) by (left; reflexivity).
  apply IH. intros arg Hin. apply H. now right.
Qed.

(** ** The argument helpers: claims C6 and C8 *)

(** C6.  Integer-value extraction of [getCmdLineArgumentInt]: the argument
    [--alloc_mem_gb=5] gives 5 for the name [alloc_mem_gb]; [--alloc_mem_gb]
    alone gives 0; when no argument sets [bFound] the result is 0; and the
    concatenated [--device3] gives 3 for the name [device]. *)
Theorem getCmdLineArgumentInt_contract :
  (forall prog, getCmdLineArgumentInt [prog; "--alloc_mem_gb=5"] "alloc_mem_gb" = 5)
  /\ (forall prog, getCmdLineArgumentInt [prog; "--alloc_mem_gb"] "alloc_mem_gb" = 0)
  /\ (forall argv string_ref,
        (forall arg, In arg (tl argv) -> arg_int_value string_ref arg = None) ->
        getCmdLineArgumentInt argv string_ref = 0)
  /\ (forall prog, getCmdLineArgumentInt [prog; "--device3"] "device" = 3).
Proof.
  repeat split; try (intros prog; reflexivity).
  intros argv ref H. unfold getCmdLineArgumentInt.
  now rewrite fold_int_none.
Qed.

Lemma getCmdLineArgumentInt_contract_witness :
  (forall arg, In arg (tl ["cudaMemTest"; "--device=4"; "help"]) ->
               arg_int_value "alloc_mem_gb" arg = None)
  /\ getCmdLineArgumentInt ["cudaMemTest"; "--device=4"; "help"] "alloc_mem_gb" = 0.
Proof.
  assert (H : forall arg, In arg (tl ["cudaMemTest"; "--device=4"; "help"]) ->
                          arg_int_value "alloc_mem_gb" arg = None).
  { intros arg [<-|[<-|[]]]; reflexivity. }
  split; [exact H|].
  exact (proj1 (proj2 (proj2 getCmdLineArgumentInt_contract)) _ _ H).
Defined.

(** C8.  [checkCmdLineFlag] does not depend on the letter case of the flag
    nor on the number of leading dashes: for the name [device], an argument
    made of any number of dashes, [device] in any letter case and then
    nothing or [=value] reports the flag present, wherever it stands after
    [argv[0]]; in particular [--Device=2], [-device=2] and [---DEVICE=2]
    do.  The same holds for every flag name of two characters or more that
    has no [=] and does not start with a dash. *)
Theorem checkCmdLineFlag_device_insensitive :
  (forall (argv : list string) (k : nat) (name rest : string),
      lower name = lower "device" ->
      flag_tail rest ->
      In (dashes k ++ name ++ rest) (tl argv) ->
      checkCmdLineFlag argv "device" = true)
  /\ (forall prog, checkCmdLineFlag [prog; "--Device=2"] "device" = true)
  /\ (forall prog, checkCmdLineFlag [prog; "-device=2"] "device" = true)
  /\ (forall prog, checkCmdLineFlag [prog; "---DEVICE=2"] "device" = true)
  /\ (forall (argv : list string) (string_ref : string)
             (k : nat) (name rest : string),
         (2 <= String.length string_ref)%nat ->
         strchr string_ref "=" = None ->
         count_leading "-" string_ref = O ->
         lower name = lower string_ref ->
         flag_tail rest ->
         In (dashes k ++ name ++ rest) (tl argv) ->
         checkCmdLineFlag argv string_ref = true).
Proof.
  assert (Hgen : forall (argv : list string) (string_ref : string)
                        (k : nat) (name rest : string),
             (2 <= String.length string_ref)%nat ->
             strchr string_ref "=" = None ->
             count_leading "-" string_ref = O ->
             lower name = lower string_ref ->
             flag_tail rest ->
             In (dashes k ++ name ++ rest) (tl argv) ->
             checkCmdLineFlag argv string_ref = true).
  { intros argv ref k name rest Hlen Heq Hdash Hl Hrest Hin.
    apply (checkCmdLineFlag_In argv ref _ Hin).
    apply flag_matches_token; auto.
    right. rewrite (lower_length_eq _ _ Hl). lia. }
  split; [|split; [|split; [|split]]]; try (intros prog; reflexivity).
  - intros argv k name rest Hl Hrest Hin.
    apply (Hgen argv "device" k name rest); auto. simpl. lia.
  - exact Hgen.
Qed.

Lemma checkCmdLineFlag_device_insensitive_witness :
  (lower "dEvIcE" = lower "device"
   /\ flag_tail "=17"
   /\ In (dashes 5 ++ "dEvIcE" ++ "=17") (tl ["cudaMemTest"; "-----dEvIcE=17"])
   /\ checkCmdLineFlag ["cudaMemTest"; "-----dEvIcE=17"] "device" = true)
  /\ ((2 <= String.length "alloc_mem_gb")%nat
      /\ strchr "alloc_mem_gb" "=" = None
      /\ count_leading "-" "alloc_mem_gb" = O
      /\ lower "Alloc_Mem_GB" = lower "alloc_mem_gb"
      /\ flag_tail ""
      /\ checkCmdLineFlag ["cudaMemTest"; "--device=0"; "-Alloc_Mem_GB"]
                          "alloc_mem_gb" = true).
Proof.
  assert (H1 : lower "dEvIcE" = lower "device") by reflexivity.
  assert (H2 : flag_tail "=17") by (right; exists "17"; reflexivity).
  assert (H3 : In (dashes 5 ++ "dEvIcE" ++ "=17")
                  (tl ["cudaMemTest"; "-----dEvIcE=17"]))
    by (left; reflexivity).
  assert (G1 : (2 <= String.length "alloc_mem_gb")%nat) by (simpl; lia).
  assert (G2 : strchr "alloc_mem_gb" "=" = None) by reflexivity.
  assert (G3 : count_leading "-" "alloc_mem_gb" = O) by reflexivity.
  assert (G4 : lower "Alloc_Mem_GB" = lower "alloc_mem_gb") by reflexivity.
  assert (G5 : flag_tail "") by (left; reflexivity).
  assert (G6 : In (dashes 1 ++ "Alloc_Mem_GB" ++ "")
                  (tl ["cudaMemTest"; "--device=0"; "-Alloc_Mem_GB"]))
    by (right; left; reflexivity).
  split.
  - split; [exact H1 | split; [exact H2 | split; [exact H3 |]]].
    exact (proj1 checkCmdLineFlag_device_insensitive _ 5%nat "dEvIcE" "=17"
                 H1 H2 H3).
  - split; [exact G1 | split; [exact G2 | split; [exact G3 |
      split; [exact G4 | split; [exact G5 |]]]]].
    exact (proj2 (proj2 (proj2 (proj2 checkCmdLineFlag_device_insensitive)))
                 _ "alloc_mem_gb" 1%nat "Alloc_Mem_GB" "" G1 G2 G3 G4 G5 G6).
Defined.

(** ** The paths of [main] *)

Arguments max_alloc_size : simpl never.
Arguments effective_size : simpl never.
Arguments requested_size : simpl never.
Arguments fmt_ld : simpl never.
Arguments fmt_lu : simpl never.
Arguments checkCmdLineFlag : simpl never.
Arguments getCmdLineArgumentInt : simpl never.

(** [main], path by path: the early exits, and then the allocation, the
    fill and the release, each one fatal when it fails. *)
Lemma main_paths (rt : Runtime) (argv : list string) :
  main rt argv =
    if help_requested argv then (EXIT_SUCCESS, help_usage)
    else if negb (checkCmdLineFlag argv "device") then (EXIT_SUCCESS, no_device_usage)
    else if negb (cudaSetDevice rt (devID argv) =? cudaSuccess)
    then (EXIT_FAILURE, [CallSetDevice (devID argv); Stdout invalid_device_message])
    else
      let size := alloc_size rt argv in
      let head := trace_to_malloc rt argv in
      let e1 := fst (cudaMalloc rt size) in
      let e2 := cudaMemset rt (d_A rt argv) 15 size in
      let e3 := cudaFree rt (d_A rt argv) in
      if negb (e1 =? cudaSuccess)
      then (EXIT_FAILURE,
            head ++ [CallGetErrorString e1;
                     Stderr ("Test failed (error code "
                               ++ cudaGetErrorString rt e1 ++ ")!" ++ nl)])%list
      else if negb (e2 =? cudaSuccess)
      then (EXIT_FAILURE,
            head ++ [CallMemset (d_A rt argv) 15 size; CallGetErrorString e2;
                     Stderr ("Test failed in setting mem(error code "
                               ++ cudaGetErrorString rt e2 ++ ")!" ++ nl)])%list
      else if negb (e3 =? cudaSuccess)
      then (EXIT_FAILURE,
            head ++ [CallMemset (d_A rt argv) 15 size; CallFree (d_A rt argv);
                     CallGetErrorString e3;
                     Stderr ("Failed to free device vector A (error code "
                               ++ cudaGetErrorString rt e3 ++ ")!" ++ nl)])%list
      else (EXIT_SUCCESS,
            head ++ [CallMemset (d_A rt argv) 15 size; CallFree (d_A rt argv);
                     Stdout passed_message])%list.
Proof.
  unfold main, main_body, help_requested, trace_to_malloc, size_report,
    d_A, alloc_size, devID, free_memory, total_memory, error_string.
  destruct (checkCmdLineFlag argv "help" || checkCmdLineFlag argv "?");
    [reflexivity|].
  destruct (checkCmdLineFlag argv "device"); [|reflexivity].
  cbn [negb bind call printf emit ret return_ fst snd app].
  destruct (cudaSetDevice rt (getCmdLineArgumentInt argv "device") =? cudaSuccess);
    [|reflexivity].
  cbn [negb bind call printf emit ret return_ fst snd app].
  destruct (fst (cudaMemGetInfo rt) =? cudaSuccess);
    destruct (checkCmdLineFlag argv ALLOC_MEM_OPT_STR);
    cbn [negb bind call printf emit ret return_ fst snd app];
    match goal with
    | |- context [?a >? ?b] => destruct (a >? b)
    end;
    cbn [negb bind call printf emit ret return_ fst snd app];
    match goal with
    | |- context [cudaMalloc rt ?s] => destruct (cudaMalloc rt s) as [e1 ptr]
    end;
    cbn [negb bind call printf emit fprintf_stderr ret return_ fst snd app];
    destruct (e1 =? cudaSuccess);
    cbn [negb bind call printf emit fprintf_stderr ret return_ fst snd app];
    try reflexivity;
    match goal with
    | |- context [cudaMemset rt ?p ?v ?s] => destruct (cudaMemset rt p v s =? cudaSuccess)
    end;
    cbn [negb bind call printf emit fprintf_stderr ret return_ fst snd app];
    try reflexivity;
    match goal with
    | |- context [cudaFree rt ?p] => destruct (cudaFree rt p =? cudaSuccess)
    end;
    reflexivity.
Qed.

(** *** Projections of a trace *)

Lemma calls_app (t1 t2 : list event) : calls (t1 ++ t2) = (calls t1 ++ calls t2)%list.
Proof. apply filter_app. Qed.

Lemma append_assoc (a b c : string) : (a ++ b) ++ c = a ++ (b ++ c).
Proof.
  induction a as [|x a IH]; [reflexivity|]. cbn [String.append]. now rewrite IH.
Qed.

Lemma ends_nl_nl : ends_nl nl.
Proof. exists "". reflexivity. Qed.

Lemma ends_nl_append (a b : string) : ends_nl b -> ends_nl (a ++ b).
Proof. intros [p ->]. exists (a ++ p). symmetry. apply append_assoc. Qed.

Lemma stderr_app (t1 t2 : list event) : stderr (t1 ++ t2) = stderr t1 ++ stderr t2.
Proof.
  induction t1 as [|e t1 IH]; [reflexivity|].
  destruct e; simpl; rewrite IH; try reflexivity.
  symmetry. apply append_assoc.
Qed.

Lemma stdout_app (t1 t2 : list event) : stdout (t1 ++ t2) = stdout t1 ++ stdout t2.
Proof.
  induction t1 as [|e t1 IH]; [reflexivity|].
  destruct e; simpl; rewrite IH; try reflexivity.
  symmetry. apply append_assoc.
Qed.

Lemma append_empty_r (s : string) : s ++ "" = s.
Proof. induction s as [|c s IH]; [reflexivity|]. cbn [String.append]. now rewrite IH. Qed.

Lemma calls_size_report (rt : Runtime) (argv : list string) :
  calls (size_report rt argv) = [].
Proof.
  unfold size_report.
  destruct (fst (cudaMemGetInfo rt) =? cudaSuccess);
    destruct (checkCmdLineFlag argv ALLOC_MEM_OPT_STR);
    destruct (requested_size argv >? max_alloc_size (free_memory rt));
    reflexivity.
Qed.

Lemma stderr_size_report (rt : Runtime) (argv : list string) :
  stderr (size_report rt argv) = "".
Proof.
  unfold size_report.
  destruct (fst (cudaMemGetInfo rt) =? cudaSuccess);
    destruct (checkCmdLineFlag argv ALLOC_MEM_OPT_STR);
    destruct (requested_size argv >? max_alloc_size (free_memory rt));
    reflexivity.
Qed.

Lemma calls_trace_to_malloc (rt : Runtime) (argv : list string) :
  calls (trace_to_malloc rt argv)
  = [CallSetDevice (devID argv); CallMemGetInfo; CallMalloc (alloc_size rt argv)].
Proof.
  unfold trace_to_malloc.
  change (calls (CallSetDevice (devID argv) :: CallMemGetInfo
                   :: size_report rt argv ++ [CallMalloc (alloc_size rt argv)])%list)
    with (CallSetDevice (devID argv) :: CallMemGetInfo
            :: calls (size_report rt argv ++ [CallMalloc (alloc_size rt argv)])%list).
  now rewrite calls_app, calls_size_report.
Qed.

Lemma stderr_trace_to_malloc (rt : Runtime) (argv : list string) :
  stderr (trace_to_malloc rt argv) = "".
Proof.
  unfold trace_to_malloc.
  change (stderr (size_report rt argv ++ [CallMalloc (alloc_size rt argv)]) = "").
  now rewrite stderr_app, stderr_size_report.
Qed.

(** Every [printf] between the query and the allocation writes one whole
    line. *)
Lemma stdout_size_report (rt : Runtime) (argv : list string) :
  stdout (size_report rt argv) = "" \/ ends_nl (stdout (size_report rt argv)).
Proof.
  unfold size_report.
  destruct (fst (cudaMemGetInfo rt) =? cudaSuccess);
    destruct (checkCmdLineFlag argv ALLOC_MEM_OPT_STR);
    destruct (requested_size argv >? max_alloc_size (free_memory rt));
    cbn [app stdout]; rewrite ?append_empty_r;
    try (left; reflexivity); right;
    repeat first [exact ends_nl_nl | apply ends_nl_append].
Qed.

Lemma stdout_trace_to_malloc (rt : Runtime) (argv : list string) :
  stdout (trace_to_malloc rt argv) = stdout (size_report rt argv).
Proof.
  unfold trace_to_malloc.
  change (stdout (size_report rt argv ++ [CallMalloc (alloc_size rt argv)])
          = stdout (size_report rt argv)).
  rewrite stdout_app. apply append_empty_r.
Qed.

(** The runtime calls of a run, in order. *)
Lemma calls_of_main (rt : Runtime) (argv : list string) :
  calls (trace (main rt argv)) =
    if help_requested argv then []
    else if negb (checkCmdLineFlag argv "device") then []
    else if negb (cudaSetDevice rt (devID argv) =? cudaSuccess)
    then [CallSetDevice (devID argv)]
    else
      let size := alloc_size rt argv in
      let e1 := fst (cudaMalloc rt size) in
      let e2 := cudaMemset rt (d_A rt argv) 15 size in
      let e3 := cudaFree rt (d_A rt argv) in
      CallSetDevice (devID argv) :: CallMemGetInfo :: CallMalloc size ::
        (if negb (e1 =? cudaSuccess) then [CallGetErrorString e1]
         else CallMemset (d_A rt argv) 15 size ::
           (if negb (e2 =? cudaSuccess) then [CallGetErrorString e2]
            else CallFree (d_A rt argv) ::
              (if negb (e3 =? cudaSuccess) then [CallGetErrorString e3]
               else []))).
Proof.
  rewrite main_paths.
  destruct (help_requested argv); [reflexivity|].
  destruct (checkCmdLineFlag argv "device"); [|reflexivity].
  cbn [negb].
  destruct (cudaSetDevice rt (devID argv) =? cudaSuccess); [|reflexivity].
  cbv zeta. cbn [negb].
  destruct (fst (cudaMalloc rt (alloc_size rt argv)) =? cudaSuccess);
    [destruct (cudaMemset rt (d_A rt argv) 15 (alloc_size rt argv) =? cudaSuccess);
     [destruct (cudaFree rt (d_A rt argv) =? cudaSuccess)|]|];
    cbn [negb trace snd]; rewrite calls_app, calls_trace_to_malloc; reflexivity.
Qed.

(** The exit status of a run. *)
Lemma exit_status_of_main (rt : Runtime) (argv : list string) :
  exit_status (main rt argv) =
    if help_requested argv then EXIT_SUCCESS
    else if negb (checkCmdLineFlag argv "device") then EXIT_SUCCESS
    else if negb (cudaSetDevice rt (devID argv) =? cudaSuccess) then EXIT_FAILURE
    else if (fst (cudaMalloc rt (alloc_size rt argv)) =? cudaSuccess)
            && (cudaMemset rt (d_A rt argv) 15 (alloc_size rt argv) =? cudaSuccess)
            && (cudaFree rt (d_A rt argv) =? cudaSuccess)
    then EXIT_SUCCESS else EXIT_FAILURE.
Proof.
  rewrite main_paths.
  destruct (help_requested argv); [reflexivity|].
  destruct (checkCmdLineFlag argv "device"); [|reflexivity].
  cbn [negb].
  destruct (cudaSetDevice rt (devID argv) =? cudaSuccess); [|reflexivity].
  cbv zeta. cbn [negb].
  destruct (fst (cudaMalloc rt (alloc_size rt argv)) =? cudaSuccess);
    [destruct (cudaMemset rt (d_A rt argv) 15 (alloc_size rt argv) =? cudaSuccess);
     [destruct (cudaFree rt (d_A rt argv) =? cudaSuccess)|]|];
    reflexivity.
Qed.

(** What a run writes to the error stream. *)
Lemma stderr_of_main (rt : Runtime) (argv : list string) :
  stderr (trace (main rt argv)) =
    if help_requested argv then ""
    else if negb (checkCmdLineFlag argv "device") then ""
    else if negb (cudaSetDevice rt (devID argv) =? cudaSuccess) then ""
    else
      let size := alloc_size rt argv in
      let e1 := fst (cudaMalloc rt size) in
      let e2 := cudaMemset rt (d_A rt argv) 15 size in
      let e3 := cudaFree rt (d_A rt argv) in
      if negb (e1 =? cudaSuccess)
      then "Test failed (error code " ++ cudaGetErrorString rt e1 ++ ")!" ++ nl
      else if negb (e2 =? cudaSuccess)
      then "Test failed in setting mem(error code "
             ++ cudaGetErrorString rt e2 ++ ")!" ++ nl
      else if negb (e3 =? cudaSuccess)
      then "Failed to free device vector A (error code "
             ++ cudaGetErrorString rt e3 ++ ")!" ++ nl
      else "".
Proof.
  rewrite main_paths.
  destruct (help_requested argv); [reflexivity|].
  destruct (checkCmdLineFlag argv "device"); [|reflexivity].
  cbn [negb].
  destruct (cudaSetDevice rt (devID argv) =? cudaSuccess); [|reflexivity].
  cbv zeta. cbn [negb].
  destruct (fst (cudaMalloc rt (alloc_size rt argv)) =? cudaSuccess);
    [destruct (cudaMemset rt (d_A rt argv) 15 (alloc_size rt argv) =? cudaSuccess);
     [destruct (cudaFree rt (d_A rt argv) =? cudaSuccess)|]|];
    cbn [negb trace snd]; rewrite stderr_app, stderr_trace_to_malloc;
    cbn [stderr]; rewrite ?append_empty_r; reflexivity.
Qed.

(** The trace of a run that selected its device. *)
Lemma trace_after_selection (rt : Runtime) (argv : list string) :
  help_requested argv = false ->
  checkCmdLineFlag argv "device" = true ->
  cudaSetDevice rt (devID argv) = cudaSuccess ->
  let size := alloc_size rt argv in
  let e1 := fst (cudaMalloc rt size) in
  let e2 := cudaMemset rt (d_A rt argv) 15 size in
  let e3 := cudaFree rt (d_A rt argv) in
  trace (main rt argv) =
    (trace_to_malloc rt argv ++
       if negb (e1 =? cudaSuccess)
       then [CallGetErrorString e1;
             Stderr ("Test failed (error code "
                       ++ cudaGetErrorString rt e1 ++ ")!" ++ nl)]
       else CallMemset (d_A rt argv) 15 size ::
            if negb (e2 =? cudaSuccess)
            then [CallGetErrorString e2;
                  Stderr ("Test failed in setting mem(error code "
                            ++ cudaGetErrorString rt e2 ++ ")!" ++ nl)]
            else CallFree (d_A rt argv) ::
                 if negb (e3 =? cudaSuccess)
                 then [CallGetErrorString e3;
                       Stderr ("Failed to free device vector A (error code "
                                 ++ cudaGetErrorString rt e3 ++ ")!" ++ nl)]
                 else [Stdout passed_message])%list.
Proof.
  intros Hh Hd Hs. rewrite main_paths, Hh, Hd. cbn [negb]. rewrite Hs.
  cbv zeta. cbn [negb Z.eqb cudaSuccess].
  destruct (fst (cudaMalloc rt (alloc_size rt argv)) =? cudaSuccess);
    [destruct (cudaMemset rt (d_A rt argv) 15 (alloc_size rt argv) =? cudaSuccess);
     [destruct (cudaFree rt (d_A rt argv) =? cudaSuccess)|]|];
    reflexivity.
Qed.

(** *** Which runs select a device *)

Lemma In_calls (e : event) (t : list event) :
  is_call e = true -> In e t -> In e (calls t).
Proof. intros He Hin. apply filter_In. now split. Qed.

Lemma set_device_called (rt : Runtime) (argv : list string) (dev : Z) :
  In (CallSetDevice dev) (trace (main rt argv)) ->
  help_requested argv = false /\ checkCmdLineFlag argv "device" = true
  /\ dev = devID argv.
Proof.
  intros Hin. apply (In_calls (CallSetDevice dev) _ eq_refl) in Hin.
  rewrite calls_of_main in Hin.
  destruct (help_requested argv); [destruct Hin|].
  destruct (checkCmdLineFlag argv "device"); [|destruct Hin].
  split; [reflexivity | split; [reflexivity|]].
  cbn [negb] in Hin.
  destruct (cudaSetDevice rt (devID argv) =? cudaSuccess); cbv zeta in Hin;
    cbn [negb] in Hin.
  - destruct (fst (cudaMalloc rt (alloc_size rt argv)) =? cudaSuccess);
      [destruct (cudaMemset rt (d_A rt argv) 15 (alloc_size rt argv) =? cudaSuccess);
       [destruct (cudaFree rt (d_A rt argv) =? cudaSuccess)|]|];
      cbn [negb In] in Hin;
      repeat (destruct Hin as [Hin|Hin]; [congruence || discriminate Hin|]);
      destruct Hin.
  - destruct Hin as [Hin|[]]. congruence.
Qed.

Lemma device_selected_iff (rt : Runtime) (argv : list string) :
  device_selected rt argv <->
  help_requested argv = false /\ checkCmdLineFlag argv "device" = true
  /\ cudaSetDevice rt (devID argv) = cudaSuccess.
Proof.
  split.
  - intros [dev [Hin Hok]].
    destruct (set_device_called rt argv dev Hin) as [H1 [H2 ->]]. auto.
  - intros [H1 [H2 H3]]. exists (devID argv). split; [|exact H3].
    rewrite main_paths, H1, H2. cbn [negb].
    rewrite H3. cbn [negb Z.eqb cudaSuccess]. cbv zeta.
    destruct (fst (cudaMalloc rt (alloc_size rt argv)) =? cudaSuccess);
      [destruct (cudaMemset rt (d_A rt argv) 15 (alloc_size rt argv) =? cudaSuccess);
       [destruct (cudaFree rt (d_A rt argv) =? cudaSuccess)|]|];
      cbn [negb trace snd]; apply in_or_app; left; left; reflexivity.
Qed.

(** ** The runner: claims C2, C4 and C5 *)

(** C4.  Fail-fast on device selection: in every run where the device flag
    is present and [cudaSetDevice] fails, the program prints the fatal
    message [Invalid device id or device already in use] and returns 1, and
    the trace holds nothing else: the selection is the only runtime call, so
    neither the memory query nor the allocation, the fill or the release is
    attempted. *)
Theorem fail_fast_on_device_selection (rt : Runtime) (argv : list string) :
  checkCmdLineFlag argv "device" = true ->
  device_selection_fails rt argv ->
  main rt argv
  = (1, [CallSetDevice (getCmdLineArgumentInt argv "device");
         Stdout ("Invalid device id or device already in use" ++ nl)])
  /\ calls (trace (main rt argv))
     = [CallSetDevice (getCmdLineArgumentInt argv "device")].
Proof.
  intros Hdev [dev [Hin Hfail]].
  destruct (set_device_called rt argv dev Hin) as [Hh [_ ->]].
  apply Z.eqb_neq in Hfail.
  split.
  - rewrite main_paths, Hh, Hdev. cbn [negb]. rewrite Hfail. reflexivity.
  - rewrite calls_of_main, Hh, Hdev. cbn [negb]. rewrite Hfail. reflexivity.
Qed.

Lemma fail_fast_on_device_selection_witness :
  let rt := scripted_runtime 101 0 0 0 0 10000000000 16000000000 in
  let argv := ["cudaMemTest"; "--device=99"] in
  checkCmdLineFlag argv "device" = true
  /\ device_selection_fails rt argv
  /\ main rt argv
     = (1, [CallSetDevice 99;
            Stdout ("Invalid device id or device already in use" ++ nl)]).
Proof.
  intros rt argv.
  assert (H1 : checkCmdLineFlag argv "device" = true) by reflexivity.
  assert (H2 : device_selection_fails rt argv).
  { exists 99. split; [left; reflexivity | discriminate]. }
  split; [exact H1 | split; [exact H2 |]].
  exact (proj1 (fail_fast_on_device_selection rt argv H1 H2)).
Defined.

(** C5.  A failed memory query is not fatal: in every run where the device
    is selected and [cudaMemGetInfo] fails, the run goes on to compute a size
    and to call [cudaMalloc] with it, and no [free mem ... total mem ...]
    line is printed.  The size is computed from whatever [free_memory]
    holds. *)
Theorem memory_query_failure_is_not_fatal (rt : Runtime) (argv : list string) :
  device_selected rt argv ->
  fst (cudaMemGetInfo rt) <> cudaSuccess ->
  (exists rest,
      calls (trace (main rt argv))
      = CallSetDevice (getCmdLineArgumentInt argv "device")
          :: CallMemGetInfo
          :: CallMalloc (effective_size (requested_size argv) (free_memory rt))
          :: rest)
  /\ (forall s, In (Stdout s) (trace (main rt argv)) ->
                String.prefix "free mem" s = false).
Proof.
  intros Hsel Hq. apply device_selected_iff in Hsel.
  destruct Hsel as [Hh [Hdev Hset]]. apply Z.eqb_neq in Hq.
  split.
  - rewrite calls_of_main, Hh, Hdev. cbn [negb]. rewrite Hset.
    cbn [negb Z.eqb cudaSuccess]. cbv zeta. eexists. reflexivity.
  - intros s. rewrite main_paths, Hh, Hdev. cbn [negb]. rewrite Hset.
    cbn [negb Z.eqb cudaSuccess]. cbv zeta.
    unfold trace_to_malloc, size_report. rewrite Hq.
    destruct (fst (cudaMalloc rt (alloc_size rt argv)) =? cudaSuccess);
      [destruct (cudaMemset rt (d_A rt argv) 15 (alloc_size rt argv) =? cudaSuccess);
       [destruct (cudaFree rt (d_A rt argv) =? cudaSuccess)|]|];
      destruct (checkCmdLineFlag argv ALLOC_MEM_OPT_STR);
      destruct (requested_size argv >? max_alloc_size (free_memory rt));
      cbn [negb trace snd app In]; intros Hin;
      repeat (destruct Hin as [Hin|Hin];
              [first [discriminate Hin | injection Hin as <-; reflexivity]|]);
      destruct Hin.
Qed.

Lemma memory_query_failure_is_not_fatal_witness :
  let rt := scripted_runtime 0 30 0 0 0 10000000000 16000000000 in
  let argv := ["cudaMemTest"; "--device=0"; "--alloc_mem_gb=2"] in
  device_selected rt argv
  /\ fst (cudaMemGetInfo rt) <> cudaSuccess
  /\ exists rest,
      calls (trace (main rt argv))
      = CallSetDevice 0 :: CallMemGetInfo :: CallMalloc 2000000000 :: rest.
Proof.
  intros rt argv.
  assert (H1 : device_selected rt argv).
  { exists 0. split; [left; reflexivity | reflexivity]. }
  assert (H2 : fst (cudaMemGetInfo rt) <> cudaSuccess) by discriminate.
  split; [exact H1 | split; [exact H2 |]].
  exact (proj1 (memory_query_failure_is_not_fatal rt argv H1 H2)).
Defined.

(** C2.  Exit codes and console contract.  The program returns 0 on the
    help path, on the usage path taken without a device flag, and after a
    diagnostic in which every step succeeds; it returns 1 when the device
    selection, the allocation, the fill or the release fails.  On success
    the last line of stdout is [CUDA memory test PASSED]; when the
    allocation, the fill or the release fails, stderr holds exactly the line
    [Test failed (error code <description>)!], resp.
    [Test failed in setting mem(error code <description>)!], resp.
    [Failed to free device vector A (error code <description>)!], with the
    description the runtime gives of the error. *)
Theorem exit_code_and_console_contract (rt : Runtime) (argv : list string) :
  let run := main rt argv in
  let size := alloc_size rt argv in
  let e_alloc := fst (cudaMalloc rt size) in
  let buffer := snd (cudaMalloc rt size) in
  let e_fill := cudaMemset rt buffer 15 size in
  let e_free := cudaFree rt buffer in
  (help_requested argv = true -> exit_status run = 0)
  /\ (help_requested argv = false -> checkCmdLineFlag argv "device" = false ->
      exit_status run = 0)
  /\ (device_selection_fails rt argv -> exit_status run = 1)
  /\ (device_selected rt argv -> e_alloc <> cudaSuccess ->
      exit_status run = 1
      /\ stderr (trace run)
         = "Test failed (error code " ++ cudaGetErrorString rt e_alloc ++ ")!" ++ nl)
  /\ (device_selected rt argv -> e_alloc = cudaSuccess -> e_fill <> cudaSuccess ->
      exit_status run = 1
      /\ stderr (trace run)
         = "Test failed in setting mem(error code "
             ++ cudaGetErrorString rt e_fill ++ ")!" ++ nl)
  /\ (device_selected rt argv -> e_alloc = cudaSuccess -> e_fill = cudaSuccess ->
      e_free <> cudaSuccess ->
      exit_status run = 1
      /\ stderr (trace run)
         = "Failed to free device vector A (error code "
             ++ cudaGetErrorString rt e_free ++ ")!" ++ nl)
  /\ (device_selected rt argv -> e_alloc = cudaSuccess -> e_fill = cudaSuccess ->
      e_free = cudaSuccess ->
      exit_status run = 0
      /\ final_line (stdout (trace run)) "CUDA memory test PASSED"
      /\ stderr (trace run) = "").
Proof.
  cbv zeta. fold (d_A rt argv).
  rewrite exit_status_of_main, stderr_of_main.
  split; [intros ->; reflexivity|].
  split; [intros -> ->; reflexivity|].
  split.
  { intros [dev [Hin Hfail]].
    destruct (set_device_called rt argv dev Hin) as [-> [-> ->]].
    apply Z.eqb_neq in Hfail. cbn [negb]. now rewrite Hfail. }
  rewrite !device_selected_iff.
  split; [|split; [|split]].
  - intros [-> [-> ->]] H1. apply Z.eqb_neq in H1.
    cbv zeta. cbn [negb Z.eqb cudaSuccess]. rewrite H1. split; reflexivity.
  - intros [-> [-> ->]] H1 H2. apply Z.eqb_neq in H2.
    cbv zeta. cbn [negb Z.eqb cudaSuccess]. rewrite H1, H2. split; reflexivity.
  - intros [-> [-> ->]] H1 H2 H3. apply Z.eqb_neq in H3.
    cbv zeta. cbn [negb Z.eqb cudaSuccess]. rewrite H1, H2, H3.
    split; reflexivity.
  - intros [Hh [Hdev Hset]] H1 H2 H3.
    rewrite main_paths, Hh, Hdev. cbn [negb]. rewrite Hset.
    cbv zeta. cbn [negb Z.eqb cudaSuccess]. rewrite H1, H2, H3.
    cbn [negb Z.eqb cudaSuccess andb trace snd].
    split; [reflexivity | split; [|reflexivity]].
    rewrite stdout_app, stdout_trace_to_malloc.
    exists (stdout (size_report rt argv)). split.
    + reflexivity.
    + apply stdout_size_report.
Qed.

Lemma exit_code_and_console_contract_witness :
  let argv := ["cudaMemTest"; "--device=0"] in
  exit_status (main (healthy_runtime 10000000000 16000000000)
                    ["cudaMemTest"; "--help"]) = 0
  /\ exit_status (main (healthy_runtime 10000000000 16000000000)
                       ["cudaMemTest"; "--alloc_mem_gb=2"]) = 0
  /\ exit_status (main (scripted_runtime 101 0 0 0 0 10000000000 16000000000)
                       ["cudaMemTest"; "--device=99"]) = 1
  /\ (exit_status (main (scripted_runtime 0 0 2 0 0 10000000000 16000000000) argv) = 1
      /\ stderr (trace (main (scripted_runtime 0 0 2 0 0 10000000000 16000000000) argv))
         = "Test failed (error code out of memory)!" ++ nl)
  /\ (exit_status (main (scripted_runtime 0 0 0 719 0 10000000000 16000000000) argv) = 1
      /\ stderr (trace (main (scripted_runtime 0 0 0 719 0 10000000000 16000000000) argv))
         = "Test failed in setting mem(error code unspecified launch failure)!" ++ nl)
  /\ (exit_status (main (scripted_runtime 0 0 0 0 719 10000000000 16000000000) argv) = 1
      /\ stderr (trace (main (scripted_runtime 0 0 0 0 719 10000000000 16000000000) argv))
         = "Failed to free device vector A (error code unspecified launch failure)!" ++ nl)
  /\ (exit_status (main (healthy_runtime 10000000000 16000000000) argv) = 0
      /\ final_line (stdout (trace (main (healthy_runtime 10000000000 16000000000) argv)))
                    "CUDA memory test PASSED"
      /\ stderr (trace (main (healthy_runtime 10000000000 16000000000) argv)) = "").
Proof.
  intros argv.
  assert (Hsel : forall rt, cudaSetDevice rt 0 = cudaSuccess -> device_selected rt argv).
  { intros rt H. apply device_selected_iff. repeat split; assumption. }
  split.
  { exact (proj1 (exit_code_and_console_contract
                    (healthy_runtime 10000000000 16000000000)
                    ["cudaMemTest"; "--help"]) eq_refl). }
  split.
  { exact (proj1 (proj2 (exit_code_and_console_contract
                           (healthy_runtime 10000000000 16000000000)
                           ["cudaMemTest"; "--alloc_mem_gb=2"])) eq_refl eq_refl). }
  split.
  { apply (proj1 (proj2 (proj2 (exit_code_and_console_contract
                           (scripted_runtime 101 0 0 0 0 10000000000 16000000000)
                           ["cudaMemTest"; "--device=99"])))).
    exists 99. split; [left; reflexivity | discriminate]. }
  split.
  { apply (proj1 (proj2 (proj2 (proj2 (exit_code_and_console_contract
                           (scripted_runtime 0 0 2 0 0 10000000000 16000000000)
                           argv))))).
    - apply Hsel. reflexivity.
    - discriminate. }
  split.
  { apply (proj1 (proj2 (proj2 (proj2 (proj2 (exit_code_and_console_contract
                           (scripted_runtime 0 0 0 719 0 10000000000 16000000000)
                           argv)))))).
    - apply Hsel. reflexivity.
    - reflexivity.
    - discriminate. }
  split.
  { apply (proj1 (proj2 (proj2 (proj2 (proj2 (proj2 (exit_code_and_console_contract
                           (scripted_runtime 0 0 0 0 719 10000000000 16000000000)
                           argv))))))).
    - apply Hsel. reflexivity.
    - reflexivity.
    - reflexivity.
    - discriminate. }
  apply (proj2 (proj2 (proj2 (proj2 (proj2 (proj2 (exit_code_and_console_contract
                           (healthy_runtime 10000000000 16000000000)
                           argv))))))).
  - apply Hsel. reflexivity.
  - reflexivity.
  - reflexivity.
  - reflexivity.
Defined.

(** ** The flags as [main] reads them: claims C3, C7, C9 and C10 *)

(** C9.  Flag presence needs the name to end the token or to be followed by
    [=]: for [--device3] alone, [checkCmdLineFlag] with the name [device] is
    false, so [main] prints the usage of the no-device path and returns 0
    without any runtime call; device 3 is never selected. *)
Theorem concatenated_device_flag_takes_usage_path (rt : Runtime) (prog : string) :
  checkCmdLineFlag [prog; "--device3"] "device" = false
  /\ main rt [prog; "--device3"]
     = (0, [Stdout ("A simple cuda memory testing tool" ++ nl);
            Stdout ("Usage --device=n (n >= 0 for deviceID)" ++ nl);
            Stdout ("      --alloc_mem_gb=k (allocates k GB)" ++ nl)])
  /\ calls (trace (main rt [prog; "--device3"])) = [].
Proof.
  split; [reflexivity|].
  split; [rewrite main_paths | rewrite calls_of_main]; reflexivity.
Qed.

(** C10.  For [--device] alone the device flag is present and
    [getCmdLineArgumentInt] gives 0: [main] prints no usage, its first event
    is the selection of device 0, and when that selection succeeds the
    diagnostic goes on with the memory query and the allocation of the
    default gigabyte, clamped; on a runtime whose calls all succeed the run
    passes. *)
Theorem bare_device_flag_selects_device_0 (rt : Runtime) (prog : string) :
  let argv := [prog; "--device"] in
  checkCmdLineFlag argv "device" = true
  /\ getCmdLineArgumentInt argv "device" = 0
  /\ (exists rest, trace (main rt argv) = CallSetDevice 0 :: rest)
  /\ (forall e, In e no_device_usage -> ~ In e (trace (main rt argv)))
  /\ (cudaSetDevice rt 0 = cudaSuccess ->
      exists rest,
        calls (trace (main rt argv))
        = CallSetDevice 0 :: CallMemGetInfo
            :: CallMalloc (effective_size 1000000000 (free_memory rt)) :: rest)
  /\ (cudaSetDevice rt 0 = cudaSuccess ->
      fst (cudaMalloc rt (alloc_size rt argv)) = cudaSuccess ->
      cudaMemset rt (d_A rt argv) 15 (alloc_size rt argv) = cudaSuccess ->
      cudaFree rt (d_A rt argv) = cudaSuccess ->
      exit_status (main rt argv) = 0
      /\ calls (trace (main rt argv))
         = [CallSetDevice 0; CallMemGetInfo; CallMalloc (alloc_size rt argv);
            CallMemset (d_A rt argv) 15 (alloc_size rt argv);
            CallFree (d_A rt argv)]).
Proof.
  intros argv.
  assert (Hh : help_requested argv = false) by reflexivity.
  assert (Hd : checkCmdLineFlag argv "device" = true) by reflexivity.
  assert (Hi : devID argv = 0) by reflexivity.
  assert (Hr : requested_size argv = 1000000000) by reflexivity.
  split; [exact Hd | split; [exact Hi |]].
  split; [|split; [|split]].
  - rewrite main_paths, Hh, Hd, Hi. cbn [negb]. cbv zeta.
    unfold trace_to_malloc. rewrite Hi.
    destruct (cudaSetDevice rt 0 =? cudaSuccess);
      [destruct (fst (cudaMalloc rt (alloc_size rt argv)) =? cudaSuccess);
       [destruct (cudaMemset rt (d_A rt argv) 15 (alloc_size rt argv) =? cudaSuccess);
        [destruct (cudaFree rt (d_A rt argv) =? cudaSuccess)|]|]|];
      cbn [negb trace snd app]; eexists; reflexivity.
  - intros e He Hin.
    assert (Hc : is_call e = false)
      by (destruct He as [<-|[<-|[<-|[]]]]; reflexivity).
    rewrite main_paths, Hh, Hd, Hi in Hin. cbn [negb] in Hin. cbv zeta in Hin.
    unfold trace_to_malloc, size_report in Hin.
    destruct (cudaSetDevice rt 0 =? cudaSuccess);
      [destruct (fst (cudaMalloc rt (alloc_size rt argv)) =? cudaSuccess);
       [destruct (cudaMemset rt (d_A rt argv) 15 (alloc_size rt argv) =? cudaSuccess);
        [destruct (cudaFree rt (d_A rt argv) =? cudaSuccess)|]|]|];
      destruct (fst (cudaMemGetInfo rt) =? cudaSuccess);
      destruct (requested_size argv >? max_alloc_size (free_memory rt));
      cbn [negb trace snd app In] in Hin;
      repeat (destruct Hin as [Hin|Hin];
              [subst e;
               first [discriminate Hc
                     | destruct He as [He|[He|[He|[]]]]; discriminate He]|]);
      destruct Hin.
  - intros Hset. rewrite calls_of_main, Hh, Hd, Hi. cbn [negb].
    rewrite Hset. cbn [negb Z.eqb cudaSuccess]. cbv zeta.
    unfold alloc_size at 1. rewrite Hr. eexists. reflexivity.
  - intros Hset H1 H2 H3.
    rewrite exit_status_of_main, calls_of_main, Hh, Hd, Hi. cbn [negb].
    rewrite Hset. cbv zeta. rewrite H1, H2, H3. split; reflexivity.
Qed.

Lemma bare_device_flag_selects_device_0_witness :
  let rt := healthy_runtime 10000000000 16000000000 in
  let argv := ["cudaMemTest"; "--device"] in
  cudaSetDevice rt 0 = cudaSuccess
  /\ exit_status (main rt argv) = 0
  /\ calls (trace (main rt argv))
     = [CallSetDevice 0; CallMemGetInfo; CallMalloc (alloc_size rt argv);
        CallMemset (d_A rt argv) 15 (alloc_size rt argv); CallFree (d_A rt argv)].
Proof.
  intros rt argv. split; [reflexivity|].
  exact (proj2 (proj2 (proj2 (proj2 (proj2
           (bare_device_flag_selects_device_0 rt "cudaMemTest")))))
           eq_refl eq_refl eq_refl eq_refl).
Defined.




(** *** The help flags *)

(** [--help], in any letter case, with any number of dashes and with or
    without [=value], anywhere after [argv[0]]: [main] prints the usage and
    returns 0 without any runtime call. *)
Lemma help_flag_short_circuit (rt : Runtime) (argv : list string)
    (k : nat) (name rest : string) :
  lower name = lower "help" ->
  flag_tail rest ->
  In (dashes k ++ name ++ rest) (tl argv) ->
  main rt argv = (EXIT_SUCCESS, help_usage)
  /\ calls (trace (main rt argv)) = [].
Proof.
  intros Hl Hrest Hin.
  assert (Hh : help_requested argv = true).
  { unfold help_requested.
    rewrite (checkCmdLineFlag_In argv "help" _ Hin); [reflexivity|].
    apply flag_matches_token; auto.
    right. rewrite (lower_length_eq _ _ Hl). simpl. lia. }
  rewrite calls_of_main, main_paths, Hh. split; reflexivity.
Qed.

Lemma strchr_dashes (k : nat) (s : string) :
  strchr s "=" = None -> strchr (dashes k ++ s) "=" = None.
Proof.
  intros H. induction k as [|k IH]; [exact H|].
  cbn [dashes String.append strchr]. now rewrite IH.
Qed.

(** With one dash or more in front, a flag of a single character is not
    recognised: [stringRemoveDelimiter] answers 0 when only one character
    follows the dashes, and the dashes then count in the compared length. *)
Lemma single_character_flag_with_dashes (k : nat) (c : ascii) :
  (1 <= k)%nat -> Ascii.eqb c "-" = false -> Ascii.eqb c "=" = false ->
  stringRemoveDelimiter "-" (dashes k ++ String c "") = 0
  /\ flag_matches (String c "") (dashes k ++ String c "") = false.
Proof.
  intros Hk Hdash Heq.
  assert (Hs : stringRemoveDelimiter "-" (dashes k ++ String c "") = 0).
  { unfold stringRemoveDelimiter, strlen.
    rewrite count_leading_dashes, length_append, length_dashes.
    cbn [count_leading String.length]. rewrite Hdash, Nat.add_0_r.
    replace (Z.of_nat k >=? Z.of_nat (k + 1) - 1) with true; [reflexivity|].
    symmetry. apply Z.geb_le. lia. }
  split; [exact Hs|].
  unfold flag_matches. rewrite Hs. cbn [Z.to_nat advance].
  rewrite strchr_dashes by (cbn [strchr]; now rewrite Heq).
  unfold strlen. rewrite length_append, length_dashes.
  cbn [String.length].
  replace (Z.of_nat 1 =? Z.of_nat (k + 1)) with false; [reflexivity|].
  symmetry. apply Z.eqb_neq. lia.
Qed.

(** C3, at the input where the code departs from it.  [-?] is not taken as a
    help flag: both tests of the first [if] of [main] are false for
    [-? --device=0], the usage is not printed, and the run starts with the
    selection of device 0.  ([--help] does short-circuit:
    [help_flag_short_circuit].) *)
Theorem dash_question_mark_is_not_help (rt : Runtime) :
  let argv := ["cudaMemTest"; "-?"; "--device=0"] in
  stringRemoveDelimiter "-" "-?" = 0
  /\ checkCmdLineFlag argv "?" = false
  /\ help_requested argv = false
  /\ (exists rest, trace (main rt argv) = CallSetDevice 0 :: rest)
  /\ trace (main rt argv) <> help_usage.
Proof.
  intros argv.
  assert (Hh : help_requested argv = false) by reflexivity.
  assert (Hd : checkCmdLineFlag argv "device" = true) by reflexivity.
  assert (Hi : devID argv = 0) by reflexivity.
  assert (Hstart : exists rest, trace (main rt argv) = CallSetDevice 0 :: rest).
  { rewrite main_paths, Hh, Hd, Hi. cbn [negb]. cbv zeta.
    unfold trace_to_malloc. rewrite Hi.
    destruct (cudaSetDevice rt 0 =? cudaSuccess);
      [destruct (fst (cudaMalloc rt (alloc_size rt argv)) =? cudaSuccess);
       [destruct (cudaMemset rt (d_A rt argv) 15 (alloc_size rt argv) =? cudaSuccess);
        [destruct (cudaFree rt (d_A rt argv) =? cudaSuccess)|]|]|];
      cbn [negb trace snd app]; eexists; reflexivity. }
  repeat (split; [reflexivity|]).
  split; [exact Hstart|].
  destruct Hstart as [rest ->]. discriminate.
Qed.

(** ** Binary64 arithmetic

    The Standard Library's rounding ([binary_round_aux]) in terms of integer
    division: shifting right by [n] keeps the quotient by [2^n], the bit
    below it and whether anything lower is set; rounding to nearest even then
    moves by at most half a unit. *)

Lemma shr_1_nonneg (m : Z) (r s : bool) :
  0 <= m ->
  shr_1 {| shr_m := m; shr_r := r; shr_s := s |}
  = {| shr_m := m / 2; shr_r := Z.odd m; shr_s := r || s |}.
Proof.
  intros Hm. rewrite <- Z.div2_div.
  destruct m as [|[p|p|]|]; try reflexivity. lia.
Qed.

Lemma iter_pos_nat {A : Type} (f : A -> A) (p : positive) (x : A) :
  iter_pos f p x = Nat.iter (Pos.to_nat p) f x.
Proof.
  revert x. induction p as [p IH|p IH|]; intros x; cbn [iter_pos].
  - rewrite !IH, Pos2Nat.inj_xI, <- Nat.iter_succ_r, <- Nat.iter_add.
    f_equal. lia.
  - rewrite !IH, Pos2Nat.inj_xO, <- Nat.iter_add. f_equal. lia.
  - reflexivity.
Qed.

Lemma mod_pow2_succ (m k : Z) :
  0 <= k ->
  m mod 2 ^ (k + 1) = 2 ^ k * ((m / 2 ^ k) mod 2) + m mod 2 ^ k.
Proof.
  intros Hk.
  assert (Hp : 0 < 2 ^ k) by (apply Z.pow_pos_nonneg; lia).
  pose proof (Z.div_mod m (2 ^ k) ltac:(lia)) as H1.
  pose proof (Z.mod_pos_bound m (2 ^ k) Hp) as H2.
  pose proof (Z.div_mod (m / 2 ^ k) 2 ltac:(lia)) as H3.
  pose proof (Z.mod_pos_bound (m / 2 ^ k) 2 ltac:(lia)) as H4.
  rewrite Z.pow_add_r, Z.pow_1_r by lia.
  symmetry. apply (Z.mod_unique_pos _ _ (m / 2 ^ k / 2)); nia.
Qed.

Lemma iter_shr_1 (m : Z) (k : nat) :
  0 <= m ->
  Nat.iter (S k) shr_1 {| shr_m := m; shr_r := false; shr_s := false |}
  = {| shr_m := m / 2 ^ Z.of_nat (S k);
       shr_r := Z.odd (m / 2 ^ Z.of_nat k);
       shr_s := negb (m mod 2 ^ Z.of_nat k =? 0) |}.
Proof.
  intros Hm. induction k as [|k IH].
  - cbn [Nat.iter]. rewrite shr_1_nonneg by exact Hm.
    change (2 ^ Z.of_nat 1) with 2. change (2 ^ Z.of_nat 0) with 1.
    now rewrite Z.div_1_r, Z.mod_1_r.
  - change (Nat.iter (S (S k)) shr_1 ?x) with (shr_1 (Nat.iter (S k) shr_1 x)).
    rewrite IH.
    assert (Hp : 0 < 2 ^ Z.of_nat (S k)) by (apply Z.pow_pos_nonneg; lia).
    rewrite shr_1_nonneg by (apply Z.div_pos; lia).
    f_equal.
    + rewrite Z.div_div by lia.
      replace (Z.of_nat (S (S k))) with (Z.of_nat (S k) + 1) by lia.
      now rewrite Z.pow_add_r, Z.pow_1_r by lia.
    + replace (Z.of_nat (S k)) with (Z.of_nat k + 1) by lia.
      rewrite mod_pow2_succ by lia.
      assert (Hq : 0 < 2 ^ Z.of_nat k) by (apply Z.pow_pos_nonneg; lia).
      pose proof (Z.mod_pos_bound m (2 ^ Z.of_nat k) Hq) as Hb.
      rewrite (Zmod_odd (m / 2 ^ Z.of_nat k)).
      destruct (Z.odd (m / 2 ^ Z.of_nat k)); cbn [orb].
      * symmetry. apply negb_true_iff, Z.eqb_neq. lia.
      * f_equal. f_equal. lia.
Qed.

Lemma shr_shift (m e n : Z) :
  0 <= m -> 0 < n ->
  shr {| shr_m := m; shr_r := false; shr_s := false |} e n
  = ({| shr_m := m / 2 ^ n;
        shr_r := Z.odd (m / 2 ^ (n - 1));
        shr_s := negb (m mod 2 ^ (n - 1) =? 0) |}, e + n).
Proof.
  intros Hm Hn. destruct n as [|p|p]; try lia.
  unfold shr. rewrite iter_pos_nat.
  destruct (Pos.to_nat p) as [|k] eqn:Ek; [lia|].
  rewrite iter_shr_1 by exact Hm.
  replace (Z.of_nat (S k)) with (Z.pos p) by lia.
  replace (Z.of_nat k) with (Z.pos p - 1) by lia.
  reflexivity.
Qed.

Lemma shr_no_shift (mrs : shr_record) (e n : Z) :
  n <= 0 -> shr mrs e n = (mrs, e).
Proof. intros Hn. destruct n; try reflexivity. lia. Qed.

Lemma digits2_pos_log2 (p : positive) :
  Z.pos (digits2_pos p) = Z.log2 (Z.pos p) + 1.
Proof.
  induction p as [p IH|p IH|]; cbn [digits2_pos]; try reflexivity.
  - rewrite Pos2Z.inj_succ, IH.
    change (Z.log2 (Z.pos p~1)) with (Z.pos (Pos.size p)).
    change (Z.log2 (Z.pos p)) with match p with xH => 0 | xO q | xI q => Z.pos (Pos.size q) end.
    destruct p; cbn [Pos.size]; lia.
  - rewrite Pos2Z.inj_succ, IH.
    change (Z.log2 (Z.pos p~0)) with (Z.pos (Pos.size p)).
    change (Z.log2 (Z.pos p)) with match p with xH => 0 | xO q | xI q => Z.pos (Pos.size q) end.
    destruct p; cbn [Pos.size]; lia.
Qed.

Lemma Zdigits2_log2 (z : Z) : 0 < z -> Zdigits2 z = Z.log2 z + 1.
Proof.
  intros Hz. destruct z as [|p|p]; try lia. apply digits2_pos_log2.
Qed.

Lemma binary_round_aux_exact (M : positive) (E : Z) :
  Z.log2 (Z.pos M) <= 52 -> -1074 <= E <= 971 ->
  binary_round_aux 53 1024 false (Z.pos M) E loc_Exact = S754_finite false M E.
Proof.
  intros Hd HE. unfold binary_round_aux, shr_fexp, fexp, emin.
  rewrite Zdigits2_log2 by lia. cbn [shr_record_of_loc].
  rewrite shr_no_shift by lia.
  cbn [shr_m loc_of_shr_record round_nearest_even].
  rewrite Zdigits2_log2 by lia. cbn [shr_record_of_loc].
  rewrite shr_no_shift by lia.
  cbn [shr_m].
  replace (E <=? 1024 - 53) with true by (symmetry; apply Z.leb_le; lia).
  reflexivity.
Qed.

(** Rounding of the integer [M] to a multiple of [2 * h], where [q], [b]
    and [t] are the quotient, the round bit and the rest. *)
Lemma round_nearest_even_bounds (M h : Z) :
  0 < h -> 0 <= M ->
  let q := M / (2 * h) in
  let q' := round_nearest_even q
              (loc_of_shr_record
                 {| shr_m := q; shr_r := Z.odd (M / h);
                    shr_s := negb (M mod h =? 0) |}) in
  (q' = q \/ q' = q + 1) /\ 2 * Z.abs (q' * (2 * h) - M) <= 2 * h.
Proof.
  intros Hh HM q q'.
  pose proof (Z.div_mod M h ltac:(lia)) as H1.
  pose proof (Z.mod_pos_bound M h Hh) as H2.
  pose proof (Z.div_mod (M / h) 2 ltac:(lia)) as H3.
  assert (Hq : q = M / h / 2).
  { unfold q. rewrite Z.div_div by lia. f_equal. lia. }
  rewrite (Zmod_odd (M / h)) in H3.
  subst q'. cbn [loc_of_shr_record].
  destruct (Z.odd (M / h)); destruct (Z.eqb_spec (M mod h) 0) as [Et|Et];
    cbn [negb round_nearest_even].
  - destruct (Z.even q); split; auto; nia.
  - split; auto; nia.
  - split; auto; nia.
  - split; auto; nia.
Qed.

Lemma binary_round_aux_round (M : positive) (E : Z) :
  let s := Z.log2 (Z.pos M) - 52 in
  0 < s -> -1074 <= E -> E + s + 1 <= 971 ->
  exists m' e',
    binary_round_aux 53 1024 false (Z.pos M) E loc_Exact = S754_finite false m' e'
    /\ E + s <= e'
    /\ 2 ^ 52 <= Z.pos m' < 2 ^ 53
    /\ (Z.pos m' * 2 ^ (e' - E - s) = Z.pos M / 2 ^ s
        \/ Z.pos m' * 2 ^ (e' - E - s) = Z.pos M / 2 ^ s + 1)
    /\ 2 * Z.abs (Z.pos m' * 2 ^ (e' - E - s) * 2 ^ s - Z.pos M) <= 2 ^ s.
Proof.
  intros s Hs HE Hmax.
  assert (Hh : 0 < 2 ^ (s - 1)) by (apply Z.pow_pos_nonneg; lia).
  assert (H2h : 2 ^ s = 2 * 2 ^ (s - 1)).
  { replace s with (s - 1 + 1) at 1 by lia.
    rewrite Z.pow_add_r, Z.pow_1_r by lia. lia. }
  pose proof (Z.log2_spec (Z.pos M) ltac:(lia)) as Hlog.
  replace (Z.succ (Z.log2 (Z.pos M))) with (s + 53) in Hlog by (unfold s; lia).
  replace (Z.log2 (Z.pos M)) with (s + 52) in Hlog by (unfold s; lia).
  rewrite !Z.pow_add_r in Hlog by lia.
  set (q := Z.pos M / 2 ^ s).
  assert (Hq : 2 ^ 52 <= q < 2 ^ 53).
  { unfold q. split.
    - apply Z.div_le_lower_bound; lia.
    - apply Z.div_lt_upper_bound; lia. }
  destruct (round_nearest_even_bounds (Z.pos M) (2 ^ (s - 1)) Hh ltac:(lia))
    as [Hq' Hb].
  rewrite <- H2h in Hq', Hb. fold q in Hq', Hb.
  set (q' := round_nearest_even q _) in *.
  unfold binary_round_aux, shr_fexp, fexp, emin.
  rewrite Zdigits2_log2 by lia. cbn [shr_record_of_loc].
  replace (Z.max (Z.log2 (Z.pos M) + 1 + E - 53) (3 - 1024 - 53) - E) with s
    by (unfold s; lia).
  rewrite shr_shift by lia. fold q. cbn [shr_m]. fold q'.
  assert (Hq'r : 2 ^ 52 <= q' <= 2 ^ 53) by lia.
  destruct (Z.eq_dec q' (2 ^ 53)) as [Heq|Hne].
  - rewrite Heq. cbn [shr_record_of_loc].
    change (Zdigits2 (2 ^ 53)) with 54.
    replace (Z.max (54 + (E + s) - 53) (3 - 1024 - 53) - (E + s)) with 1 by lia.
    change (shr {| shr_m := 2 ^ 53; shr_r := false; shr_s := false |} (E + s) 1)
      with ({| shr_m := 2 ^ 52; shr_r := false; shr_s := false |}, E + s + 1).
    cbn [shr_m]. change (2 ^ 52) with (Z.pos (2 ^ 52)).
    replace (E + s + 1 <=? 1024 - 53) with true by (symmetry; apply Z.leb_le; lia).
    exists (2 ^ 52)%positive, (E + s + 1).
    split; [reflexivity|]. split; [lia|]. split; [lia|].
    replace (E + s + 1 - E - s) with 1 by lia.
    change (Z.pos (2 ^ 52) * 2 ^ 1) with (2 ^ 53). rewrite <- Heq.
    split; [exact Hq' | exact Hb].
  - assert (Hl : Z.log2 q' = 52).
    { apply Z.log2_unique; [lia|]. change (Z.succ 52) with 53. lia. }
    rewrite Zdigits2_log2 by lia. cbn [shr_record_of_loc]. rewrite Hl.
    rewrite shr_no_shift by lia. cbn [shr_m].
    destruct q' as [|p|p] eqn:Eq'; try lia.
    replace (E + s <=? 1024 - 53) with true by (symmetry; apply Z.leb_le; lia).
    exists p, (E + s). split; [reflexivity|]. split; [lia|]. split; [lia|].
    replace (E + s - E - s) with 0 by lia. rewrite Z.pow_0_r, Z.mul_1_r.
    split; [exact Hq' | exact Hb].
Qed.


Lemma pos_iter_xO (p d : positive) :
  Z.pos (Pos.iter xO p d) = Z.pos p * 2 ^ Z.pos d.
Proof.
  induction d as [|d IH] using Pos.peano_ind.
  - cbn [Pos.iter]. lia.
  - rewrite Pos.iter_succ, Pos2Z.inj_xO, IH, Pos2Z.inj_succ, Z.pow_succ_r by lia.
    lia.
Qed.

(** The conversion of [n] to [double], for [n] below [2^53]: exact, with a
    mantissa of 53 bits. *)
Lemma of_size_t_exact (n : Z) :
  0 < n < 2 ^ 53 ->
  let e := Z.log2 n - 52 in
  exists m, Double.of_size_t n = S754_finite false m e
            /\ Z.pos m = n * 2 ^ (- e) /\ 2 ^ 52 <= Z.pos m < 2 ^ 53.
Proof.
  intros Hn e.
  assert (Hl : 0 <= Z.log2 n <= 52).
  { split; [apply Z.log2_nonneg|]. apply Z.lt_succ_r, Z.log2_lt_pow2; lia. }
  pose proof (Z.log2_spec n ltac:(lia)) as Hs.
  destruct n as [|p|p]; try lia.
  unfold Double.of_size_t, binary_normalize, binary_round, Double.prec, Double.emax.
  rewrite digits2_pos_log2. unfold fexp, emin.
  replace (Z.max (Z.log2 (Z.pos p) + 1 + 0 - 53) (3 - 1024 - 53)) with e
    by (unfold e; lia).
  unfold shl_align. rewrite Z.sub_0_r.
  destruct e as [|d|d] eqn:Ee; try lia.
  - rewrite binary_round_aux_exact by lia.
    exists p. split; [reflexivity|]. split; [cbn; lia|].
    replace (Z.log2 (Z.pos p)) with 52 in Hs by lia. exact Hs.
  - assert (Hm : Z.pos (Pos.iter xO p d) = Z.pos p * 2 ^ Z.pos d)
      by apply pos_iter_xO.
    assert (Hb : 2 ^ 52 <= Z.pos (Pos.iter xO p d) < 2 ^ 53).
    { rewrite Hm.
      replace 52 with (Z.log2 (Z.pos p) + Z.pos d) at 1 by lia.
      replace 53 with (Z.succ (Z.log2 (Z.pos p)) + Z.pos d) by lia.
      rewrite !Z.pow_add_r by lia.
      assert (0 < 2 ^ Z.pos d) by (apply Z.pow_pos_nonneg; lia). nia. }
    rewrite binary_round_aux_exact.
    + exists (Pos.iter xO p d). split; [reflexivity|].
      split; [exact Hm | exact Hb].
    + apply Z.lt_succ_r, Z.log2_lt_pow2; [lia|]. change (Z.succ 52) with 53. lia.
    + lia.
Qed.

(** The conversion of [n] to [double], for [n] from [2^53] on: a mantissa of
    53 bits, and an exponent of [Z.log2 n - 52] or one more. *)
Lemma of_size_t_rounded (n : Z) :
  2 ^ 53 <= n < 2 ^ 64 ->
  exists m e, Double.of_size_t n = S754_finite false m e
              /\ 2 ^ 52 <= Z.pos m < 2 ^ 53 /\ 1 <= e <= Z.log2 n - 51.
Proof.
  intros Hn.
  assert (Hl : 53 <= Z.log2 n < 64).
  { split; [apply Z.log2_le_pow2; lia | apply Z.log2_lt_pow2; lia]. }
  destruct n as [|p|p]; try lia.
  unfold Double.of_size_t, binary_normalize, binary_round, Double.prec, Double.emax.
  rewrite digits2_pos_log2. unfold fexp, emin.
  replace (Z.max (Z.log2 (Z.pos p) + 1 + 0 - 53) (3 - 1024 - 53))
    with (Z.log2 (Z.pos p) - 52) by lia.
  unfold shl_align. rewrite Z.sub_0_r.
  destruct (Z.log2 (Z.pos p) - 52) as [|d|d] eqn:Es; try lia.
  destruct (binary_round_aux_round p 0 ltac:(lia) ltac:(lia) ltac:(lia))
    as [m [e [Hr [He [Hm [Hq Hb]]]]]].
  exists m, e. split; [exact Hr|]. split; [exact Hm|].
  split; [lia|].
  (* the exponent is at most one above [Z.log2 n - 52] *)
  rewrite Es in *. rewrite Z.add_0_l, Z.sub_0_r in *.
  destruct (Z_le_gt_dec e (Z.pos d + 1)) as [Hle|Hgt]; [lia|exfalso].
  assert (Hp2 : 2 ^ 2 <= 2 ^ (e - Z.pos d)) by (apply Z.pow_le_mono_r; lia).
  pose proof (Z.log2_spec (Z.pos p) ltac:(lia)) as Hs.
  replace (Z.succ (Z.log2 (Z.pos p))) with (Z.pos d + 53) in Hs by lia.
  rewrite Z.pow_add_r in Hs by lia.
  assert (Hd : 0 < 2 ^ Z.pos d) by (apply Z.pow_pos_nonneg; lia).
  assert (Hq' : Z.pos p / 2 ^ Z.pos d < 2 ^ 53)
    by (apply Z.div_lt_upper_bound; lia).
  change (2 ^ 2) with 4 in Hp2. nia.
Qed.

Lemma shiftl_lt_pow2 (Q j l : Z) :
  0 <= Q <= 2 ^ 53 -> j <= l - 54 -> 0 <= l -> Z.shiftl Q j < 2 ^ l.
Proof.
  intros HQ Hj Hl.
  destruct (Z_le_gt_dec 0 j) as [Hpos|Hneg].
  - rewrite Z.shiftl_mul_pow2 by lia.
    assert (H : 2 ^ (53 + j) < 2 ^ l) by (apply Z.pow_lt_mono_r; lia).
    rewrite Z.pow_add_r in H by lia.
    assert (0 < 2 ^ j) by (apply Z.pow_pos_nonneg; lia). nia.
  - rewrite Z.shiftl_div_pow2 by lia.
    assert (0 < 2 ^ (- j)) by (apply Z.pow_pos_nonneg; lia).
    apply Z.div_lt_upper_bound; [lia|].
    rewrite <- Z.pow_add_r by lia.
    assert (H54 : 2 ^ 54 <= 2 ^ (- j + l)) by (apply Z.pow_le_mono_r; lia).
    change (2 ^ 54) with (2 * 2 ^ 53) in H54. lia.
Qed.

(** The product [0.1 * x] for a normal [x]: the mantissa of the exact
    product is rounded to 53 bits, to nearest. *)
Lemma mul_point_one (m : positive) (e : Z) :
  2 ^ 52 <= Z.pos m < 2 ^ 53 -> -52 <= e <= 12 ->
  let P := 7205759403792794 * Z.pos m in
  let s := Z.log2 P - 52 in
  let E := e - 56 in
  exists m' e',
    Double.mul Double.point_one (S754_finite false m e) = S754_finite false m' e'
    /\ 52 <= s <= 53
    /\ E + s <= e'
    /\ (Z.pos m' * 2 ^ (e' - E - s) = P / 2 ^ s
        \/ Z.pos m' * 2 ^ (e' - E - s) = P / 2 ^ s + 1)
    /\ Z.pos m' * 2 ^ (e' - E - s) <= 2 ^ 53
    /\ 2 * Z.abs (Z.pos m' * 2 ^ (e' - E - s) * 2 ^ s - P) <= 2 ^ s.
Proof.
  intros Hm He P s E.
  assert (HP : 2 ^ 104 <= P < 2 ^ 106) by (unfold P; lia).
  assert (Hs : 52 <= s <= 53).
  { unfold s. split.
    - assert (104 <= Z.log2 P) by (apply Z.log2_le_pow2; lia). lia.
    - assert (Z.log2 P < 106) by (apply Z.log2_lt_pow2; lia). lia. }
  unfold Double.mul, Double.point_one, SFmul, Double.prec, Double.emax.
  cbn [xorb]. change (Z.pos (7205759403792794 * m)) with P.
  replace (-56 + e) with E by (unfold E; lia).
  pose proof (binary_round_aux_round (7205759403792794 * m) E) as Hround.
  change (Z.pos (7205759403792794 * m)) with P in Hround.
  cbv zeta in Hround. fold s in Hround.
  destruct (Hround ltac:(lia) ltac:(unfold E; lia) ltac:(unfold E; lia))
    as [m' [e' [Hr [He' [Hm' [Hq Hb]]]]]].
  exists m', e'. split; [exact Hr|]. split; [exact Hs|]. split; [exact He'|].
  split; [exact Hq|]. split; [|exact Hb].
  assert (Hlog := Z.log2_spec P ltac:(lia)).
  replace (Z.succ (Z.log2 P)) with (s + 53) in Hlog by (unfold s; lia).
  rewrite Z.pow_add_r in Hlog by lia.
  assert (0 < 2 ^ s) by (apply Z.pow_pos_nonneg; lia).
  assert (P / 2 ^ s < 2 ^ 53) by (apply Z.div_lt_upper_bound; lia).
  lia.
Qed.

(** [(size_t)] of a product given by [mul_point_one]. *)
Lemma to_size_t_shift (m' : positive) (e' j : Z) :
  j <= e' ->
  Z.shiftl (Z.pos m') e' = Z.shiftl (Z.pos m' * 2 ^ (e' - j)) j.
Proof.
  intros Hj. rewrite <- (Z.shiftl_mul_pow2 _ (e' - j)) by lia.
  rewrite Z.shiftl_shiftl by lia. f_equal. lia.
Qed.

Lemma to_size_t_nonneg (x : spec_float) : 0 <= Double.to_size_t x.
Proof.
  destruct x as [| | |[|] m e]; cbn [Double.to_size_t]; try lia.
  destruct (Z.shiftl (Z.pos m) e <=? Int.SIZE_MAX); [|lia].
  apply Z.shiftl_nonneg. lia.
Qed.

(** [(size_t)(0.1 * free_memory)] is below [free_memory], for every
    64-bit [free_memory] but 0. *)
Lemma tenth_of_lt (n : Z) : 0 < n < 2 ^ 64 -> 0 <= tenth_of n < n.
Proof.
  intros Hn. split; [apply to_size_t_nonneg|].
  assert (Hl : 0 <= Z.log2 n < 64).
  { split; [apply Z.log2_nonneg | apply Z.log2_lt_pow2; lia]. }
  pose proof (Z.log2_spec n ltac:(lia)) as Hspec.
  assert (Hx : exists m e, Double.of_size_t n = S754_finite false m e
                           /\ 2 ^ 52 <= Z.pos m < 2 ^ 53
                           /\ -52 <= e <= Z.log2 n - 51).
  { destruct (Z_lt_ge_dec n (2 ^ 53)) as [Hsmall|Hbig].
    - destruct (of_size_t_exact n ltac:(lia)) as [m [Hr [_ Hm]]].
      exists m, (Z.log2 n - 52). split; [exact Hr|]. split; [exact Hm | lia].
    - destruct (of_size_t_rounded n ltac:(lia)) as [m [e [Hr [Hm He]]]].
      exists m, e. split; [exact Hr|]. split; [exact Hm | lia]. }
  destruct Hx as [m [e [Hr [Hm He]]]].
  unfold tenth_of. rewrite Hr.
  destruct (mul_point_one m e Hm ltac:(lia))
    as [m' [e' [Hmul [Hs [He' [_ [Hq _]]]]]]].
  rewrite Hmul. cbn [Double.to_size_t].
  set (s := Z.log2 (7205759403792794 * Z.pos m) - 52) in *.
  assert (Ht : Z.shiftl (Z.pos m') e' < 2 ^ Z.log2 n).
  { rewrite (to_size_t_shift m' e' (e - 56 + s)) by lia.
    replace (e' - (e - 56 + s)) with (e' - (e - 56) - s) by lia.
    apply shiftl_lt_pow2; [|lia|lia].
    split; [|exact Hq].
    assert (0 < 2 ^ (e' - (e - 56) - s)) by (apply Z.pow_pos_nonneg; lia). lia. }
  destruct (Z.shiftl (Z.pos m') e' <=? Int.SIZE_MAX); lia.
Qed.

(** Below [2^52] the double product is exact enough:
    [(size_t)(0.1 * free_memory)] is [free_memory / 10]. *)
Lemma tenth_of_exact (n : Z) : 0 < n < 2 ^ 52 -> tenth_of n = n / 10.
Proof.
  intros Hn.
  assert (Hl : 0 <= Z.log2 n < 52).
  { split; [apply Z.log2_nonneg | apply Z.log2_lt_pow2; lia]. }
  destruct (of_size_t_exact n ltac:(lia)) as [m [Hr [Hmn Hm]]].
  unfold tenth_of. rewrite Hr.
  destruct (mul_point_one m (Z.log2 n - 52) Hm ltac:(lia))
    as [m' [e' [Hmul [Hs [He' [Hq [_ Hb]]]]]]].
  rewrite Hmul. cbn [Double.to_size_t].
  set (s := Z.log2 (7205759403792794 * Z.pos m) - 52) in *.
  set (l := Z.log2 n) in *.
  rewrite (to_size_t_shift m' e' (l - 52 - 56 + s)) by lia.
  replace (e' - (l - 52 - 56 + s)) with (e' - (l - 52 - 56) - s) by lia.
  set (Q := Z.pos m' * 2 ^ (e' - (l - 52 - 56) - s)) in *.
  rewrite Z.shiftl_div_pow2 by lia.
  replace (- (l - 52 - 56 + s)) with (108 - l - s) by lia.
  replace (- (l - 52)) with (52 - l) in Hmn by lia.
  set (U := 2 ^ (52 - l)) in *.
  set (W := 2 ^ (108 - l - s)).
  set (S := 2 ^ s) in *.
  assert (HU : 1 <= U) by (apply (Z.pow_le_mono_r 2 0); lia).
  assert (HW : 0 < W) by (apply Z.pow_pos_nonneg; lia).
  assert (HS : 0 < S <= 2 ^ 53).
  { split; [apply Z.pow_pos_nonneg; lia | apply Z.pow_le_mono_r; lia]. }
  assert (HSW : S * W = 2 ^ 56 * U).
  { unfold S, W, U. rewrite <- !Z.pow_add_r by lia. f_equal. lia. }
  pose proof (Z.div_mod n 10 ltac:(lia)) as Hdiv.
  pose proof (Z.mod_pos_bound n 10 ltac:(lia)) as Hmod.
  set (k := n / 10) in *. set (r := n mod 10) in *.
  rewrite Hmn in Hq, Hb.
  set (P := 7205759403792794 * (n * U)) in *.
  assert (HP : P = k * (2 ^ 56 * U) + (4 * k + 7205759403792794 * r) * U).
  { unfold P. rewrite Hdiv. change (2 ^ 56) with 72057594037927936. ring. }
  assert (Hk : 0 <= 4 * k < 2 ^ 51) by lia.
  assert (Hlow : k * W <= P / S).
  { apply Z.div_le_lower_bound; [lia|].
    replace (S * (k * W)) with (k * (S * W)) by ring. rewrite HSW. nia. }
  assert (Hhigh : Q * S < (k + 1) * (S * W)).
  { rewrite HSW.
    assert (2 * (Q * S) <= 2 * P + S) by lia.
    assert ((4 * k + 7205759403792794 * r) * U + 2 ^ 52 < 2 ^ 56 * U) by nia.
    nia. }
  assert (HQ : k * W <= Q < (k + 1) * W) by nia.
  assert (Hres : Q / W = k).
  { symmetry. apply (Z.div_unique_pos Q W k (Q - k * W)); lia. }
  rewrite Hres.
  replace (k <=? Int.SIZE_MAX) with true; [reflexivity|].
  symmetry. apply Z.leb_le. unfold Int.SIZE_MAX. lia.
Qed.

(** ** The allocation policy: claim C1 *)

Lemma to_int_range (z : Z) : Int.INT_MIN <= Int.to_int z <= Int.INT_MAX.
Proof.
  unfold Int.to_int, Int.signed, Int.INT_MIN, Int.INT_MAX.
  pose proof (Z.mod_pos_bound (z + 2 ^ (32 - 1)) (2 ^ 32) eq_refl) as H.
  change (2 ^ (32 - 1)) with 2147483648 in *.
  change (2 ^ 31) with 2147483648.
  change (2 ^ 32) with 4294967296 in *. lia.
Qed.

(** [getCmdLineArgumentInt] returns an [int]. *)
Lemma getCmdLineArgumentInt_range (argv : list string) (ref : string) :
  Int.INT_MIN <= getCmdLineArgumentInt argv ref <= Int.INT_MAX.
Proof.
  unfold getCmdLineArgumentInt.
  assert (H : forall args st,
             Int.INT_MIN <= snd st <= Int.INT_MAX ->
             Int.INT_MIN <= snd (fold_left
                                   (fun st arg =>
                                      match arg_int_value ref arg with
                                      | Some v => (true, v)
                                      | None => st
                                      end) args st) <= Int.INT_MAX).
  { induction args as [|a args IH]; intros st Hst; [exact Hst|].
    cbn [fold_left]. apply IH.
    unfold arg_int_value.
    destruct (strncasecmp _ _ _ =? 0); [|exact Hst].
    destruct (_ <=? _); cbn [snd]; [apply to_int_range|].
    unfold Int.INT_MIN, Int.INT_MAX. lia. }
  specialize (H (tl argv) (false, -1)).
  destruct (fold_left _ (tl argv) (false, -1)) as [[|] value]; cbn [snd] in H.
  - apply H. unfold Int.INT_MIN, Int.INT_MAX. cbn. lia.
  - unfold Int.INT_MIN, Int.INT_MAX. lia.
Qed.

(** The request is never 0 bytes, whatever [int] was parsed: a negative
    [int] becomes a huge [size_t], and the product by 10^9 wraps to a
    multiple of 2^9 that is not 0. *)
Lemma requested_of_gb_range (gb : Z) :
  Int.INT_MIN <= gb <= Int.INT_MAX ->
  0 < requested_of_gb (alloc_mem_gb_of_int gb) < 2 ^ 64.
Proof.
  unfold Int.INT_MIN, Int.INT_MAX. change (2 ^ 31) with 2147483648.
  intros Hgb.
  unfold requested_of_gb, alloc_mem_gb_of_int, Int.to_size_t, Int.unsigned,
    DEFAULT_ALLOC_MEM_IN_GB.
  change (2 ^ 64) with 18446744073709551616.
  destruct (Z.eqb_spec (gb mod 18446744073709551616) 0) as [E|E].
  - cbn. lia.
  - destruct (Z_lt_ge_dec gb 0) as [Hneg|Hpos].
    + replace (gb mod 18446744073709551616) with (gb + 18446744073709551616)
        by (apply (Z.mod_unique_pos _ _ (-1)); lia).
      replace ((gb + 18446744073709551616) * 1000 * 1000 * 1000)
        with (gb * 1000000000 + 18446744073709551616 + 999999999 * 18446744073709551616)
        by ring.
      rewrite Z.mod_add by lia.
      rewrite Z.mod_small by lia. lia.
    + rewrite (Z.mod_small gb) in * by lia.
      rewrite Z.mod_small by lia. lia.
Qed.

(** The ceiling computed by the code is positive and at most
    [free_memory]. *)
Lemma max_alloc_size_range (free : Z) :
  0 < free < 2 ^ 64 ->
  max_alloc_size free = free - tenth_of free /\ 0 < max_alloc_size free <= free.
Proof.
  intros Hfree. pose proof (tenth_of_lt free Hfree) as Ht.
  unfold max_alloc_size, Int.to_size_t, Int.unsigned.
  rewrite Z.mod_small by lia. lia.
Qed.

(** Below [2^52] the ceiling of the code is the ceiling of the
    specification. *)
Lemma max_alloc_size_exact (free : Z) :
  0 < free < 2 ^ 52 -> max_alloc_size free = ceiling_spec free.
Proof.
  intros Hfree.
  destruct (max_alloc_size_range free ltac:(lia)) as [-> _].
  now rewrite tenth_of_exact.
Qed.

(** C1 as stated fails for a [free_memory] that binary64 cannot hold
    exactly.  With 1,333,333,333,333,333,332 bytes free and 1,200,000,000 GB
    requested, the request exceeds nine tenths of the free memory, yet the
    product [0.1 * free_memory] rounds down, the ceiling computed by the code
    is 4 bytes above the request, and the raw request is what is
    allocated: it is neither the ceiling of the code nor
    [freeBytes - floor(freeBytes / 10)]. *)
Lemma clamp_law_counterexample :
  let freeBytes := 1333333333333333332 in
  let requestedGb := 1200000000 in
  (0 < freeBytes < 2 ^ 64)
  /\ (Int.INT_MIN <= requestedGb <= Int.INT_MAX)
  /\ 9 * freeBytes < 10 * (requestedGb * 1000000000)
  /\ tenth_of freeBytes = 133333333333333328
  /\ max_alloc_size freeBytes = 1200000000000000004
  /\ ceiling_spec freeBytes = 1199999999999999999
  /\ effective_of_gb requestedGb freeBytes = requestedGb * 1000000000
  /\ effective_of_gb requestedGb freeBytes <> max_alloc_size freeBytes
  /\ effective_of_gb requestedGb freeBytes <> ceiling_spec freeBytes.
Proof.
  vm_compute. repeat split; try reflexivity; discriminate.
Qed.

(** Without wrap-around, a positive [requestedGb] is that many decimal
    gigabytes. *)
Lemma requested_of_gb_positive (gb : Z) :
  0 < gb <= Int.INT_MAX ->
  requested_of_gb (alloc_mem_gb_of_int gb) = gb * 1000000000.
Proof.
  unfold Int.INT_MAX. change (2 ^ 31) with 2147483648. intros Hgb.
  unfold requested_of_gb, alloc_mem_gb_of_int, Int.to_size_t, Int.unsigned.
  change (2 ^ 64) with 18446744073709551616.
  rewrite (Z.mod_small gb) by lia.
  destruct (Z.eqb_spec gb 0) as [E|E]; [lia|].
  rewrite Z.mod_small by lia. lia.
Qed.

(** Below [2^52], a request above nine tenths of the free memory is
    allocated as [free - floor(free / 10)]. *)
Lemma effective_size_clamped (free requested : Z) :
  0 < free < 2 ^ 52 ->
  9 * free < 10 * requested ->
  effective_size requested free = free - free / 10.
Proof.
  intros Hfree Hover. unfold effective_size.
  rewrite (max_alloc_size_exact free Hfree). unfold ceiling_spec.
  pose proof (Z.div_mod free 10 ltac:(lia)) as Hd.
  pose proof (Z.mod_pos_bound free 10 ltac:(lia)) as Hm.
  destruct (Z.gtb_spec requested (free - free / 10)); lia.
Qed.

Lemma effective_size_range (free requested : Z) :
  0 < free < 2 ^ 64 -> 0 < requested ->
  0 < effective_size requested free <= max_alloc_size free.
Proof.
  intros Hfree Hreq.
  destruct (max_alloc_size_range free Hfree) as [_ Hc].
  unfold effective_size.
  destruct (Z.gtb_spec requested (max_alloc_size free)); lia.
Qed.

(** C1, amended.  For every [free_memory] with [0 < free_memory < 2^52] and
    every parsed [requestedGb] with [requestedGb * 10^9 > 0.9 * free_memory],
    the size passed to the allocation is
    [free_memory - floor(free_memory / 10)], which is the ceiling the code
    computes; so it is in every run of [main] whose request exceeds nine
    tenths of such a [free_memory].  For every 64-bit [free_memory > 0]: a
    request above the ceiling the code computes,
    [free_memory - (size_t)(0.1 * free_memory)] in binary64, is replaced by
    that ceiling, and the size passed to the allocation is positive and at
    most that ceiling, for every parsed [requestedGb] and in every run of
    [main]. *)
Theorem clamp_law :
  (forall freeBytes requestedGb,
      0 < freeBytes < 2 ^ 52 ->
      Int.INT_MIN <= requestedGb <= Int.INT_MAX ->
      9 * freeBytes < 10 * (requestedGb * 1000000000) ->
      effective_of_gb requestedGb freeBytes = freeBytes - freeBytes / 10
      /\ max_alloc_size freeBytes = freeBytes - freeBytes / 10)
  /\ (forall rt argv,
         0 < free_memory rt < 2 ^ 52 ->
         9 * free_memory rt < 10 * requested_size argv ->
         alloc_size rt argv = free_memory rt - free_memory rt / 10)
  /\ (forall freeBytes requested,
         requested > max_alloc_size freeBytes ->
         effective_size requested freeBytes = max_alloc_size freeBytes)
  /\ (forall freeBytes requestedGb,
         0 < freeBytes < 2 ^ 64 ->
         Int.INT_MIN <= requestedGb <= Int.INT_MAX ->
         0 < effective_of_gb requestedGb freeBytes <= max_alloc_size freeBytes)
  /\ (forall rt argv,
         0 < free_memory rt ->
         0 < alloc_size rt argv <= max_alloc_size (free_memory rt)).
Proof.
  split; [|split; [|split; [|split]]].
  - intros free gb Hfree Hgb Hover.
    split; [|apply (max_alloc_size_exact free Hfree)].
    unfold effective_of_gb.
    rewrite requested_of_gb_positive by lia.
    now apply effective_size_clamped.
  - intros rt argv Hfree Hover. now apply effective_size_clamped.
  - intros free requested H. unfold effective_size.
    destruct (Z.gtb_spec requested (max_alloc_size free)); [reflexivity | lia].
  - intros free gb Hfree Hgb. unfold effective_of_gb.
    apply effective_size_range; [exact Hfree|].
    apply requested_of_gb_range, Hgb.
  - intros rt argv Hfree. unfold alloc_size.
    apply effective_size_range.
    + split; [exact Hfree|]. unfold free_memory, Int.to_size_t, Int.unsigned.
      apply Z.mod_pos_bound. reflexivity.
    + unfold requested_size.
      destruct (checkCmdLineFlag argv ALLOC_MEM_OPT_STR); [|reflexivity].
      apply requested_of_gb_range, getCmdLineArgumentInt_range.
Qed.

Lemma clamp_law_witness :
  let rt := healthy_runtime 10000000000 16000000000 in
  let argv := ["cudaMemTest"; "--device=0"; "--alloc_mem_gb=50"] in
  (effective_of_gb 50 10000000000 = 10000000000 - 10000000000 / 10
   /\ max_alloc_size 10000000000 = 10000000000 - 10000000000 / 10)
  /\ alloc_size rt argv = free_memory rt - free_memory rt / 10
  /\ effective_size 50000000000 10000000000 = max_alloc_size 10000000000
  /\ 0 < effective_of_gb (-1) 1333333333333333332
       <= max_alloc_size 1333333333333333332
  /\ 0 < alloc_size rt argv <= max_alloc_size (free_memory rt).
Proof.
  intros rt argv.
  split; [|split; [|split; [|split]]].
  - apply (proj1 clamp_law 10000000000 50); vm_compute; intuition discriminate.
  - apply (proj1 (proj2 clamp_law) rt argv); vm_compute; intuition discriminate.
  - apply (proj1 (proj2 (proj2 clamp_law)) 10000000000 50000000000). reflexivity.
  - apply (proj1 (proj2 (proj2 (proj2 clamp_law))) 1333333333333333332 (-1));
      vm_compute; intuition discriminate.
  - apply (proj2 (proj2 (proj2 (proj2 clamp_law))) rt). reflexivity.
Defined.

(** * Further properties of the code *)

(** ** [main]: status, verdict and the order of the runtime calls *)

(** X1.  Whatever the arguments and whatever the runtime answers, [main]
    returns [EXIT_SUCCESS] or [EXIT_FAILURE], that is 0 or 1. *)
Theorem main_returns_0_or_1 (rt : Runtime) (argv : list string) :
  exit_status (main rt argv) = 0 \/ exit_status (main rt argv) = 1.
Proof.
  rewrite exit_status_of_main.
  destruct (help_requested argv); [left; reflexivity|].
  destruct (checkCmdLineFlag argv "device"); [|left; reflexivity].
  cbn [negb].
  destruct (cudaSetDevice rt (devID argv) =? cudaSuccess); [|right; reflexivity].
  cbn [negb].
  destruct (_ && _); [left | right]; reflexivity.
Qed.

(** X2.  No runtime call is made exactly when help is requested or no
    device flag is given; the run then prints a usage text and returns 0.
    This covers an empty argument list. *)
Theorem no_runtime_call_iff_usage (rt : Runtime) (argv : list string) :
  (calls (trace (main rt argv)) = []
   <-> help_requested argv = true \/ checkCmdLineFlag argv "device" = false)
  /\ (help_requested argv = true \/ checkCmdLineFlag argv "device" = false ->
      exit_status (main rt argv) = 0
      /\ (trace (main rt argv) = help_usage
          \/ trace (main rt argv) = no_device_usage)).
Proof.
  rewrite calls_of_main, main_paths.
  destruct (help_requested argv).
  { split; [split; auto | intros _; split; [reflexivity | left; reflexivity]]. }
  destruct (checkCmdLineFlag argv "device"); cbn [negb].
  - split.
    + split.
      * destruct (cudaSetDevice rt (devID argv) =? cudaSuccess); discriminate.
      * intros [H|H]; discriminate H.
    + intros [H|H]; discriminate H.
  - split; [split; auto | intros _; split; [reflexivity | right; reflexivity]].
Qed.

Lemma no_runtime_call_iff_usage_witness :
  calls (trace (main (healthy_runtime 10000000000 16000000000)
                     ["cudaMemTest"; "--alloc_mem_gb=4"])) = []
  /\ exit_status (main (healthy_runtime 10000000000 16000000000) []) = 0.
Proof.
  split.
  - apply (proj1 (no_runtime_call_iff_usage
                    (healthy_runtime 10000000000 16000000000)
                    ["cudaMemTest"; "--alloc_mem_gb=4"])).
    right. reflexivity.
  - apply (proj2 (no_runtime_call_iff_usage
                    (healthy_runtime 10000000000 16000000000) [])).
    right. reflexivity.
Defined.

Lemma In_size_report_stdout (rt : Runtime) (argv : list string) (e : event) :
  In e (size_report rt argv) ->
  exists s r, e = Stdout s
              /\ (s = "free mem " ++ r \/ s = "alloc " ++ r
                  \/ s = "Invalid allocation " ++ r).
Proof.
  unfold size_report.
  destruct (fst (cudaMemGetInfo rt) =? cudaSuccess);
    destruct (checkCmdLineFlag argv ALLOC_MEM_OPT_STR);
    destruct (requested_size argv >? max_alloc_size (free_memory rt));
    cbn [app In]; intros Hin;
    repeat (destruct Hin as [Hin|Hin];
            [subst e; eexists; eexists; split; [reflexivity|];
             first [left; reflexivity | right; left; reflexivity
                   | right; right; reflexivity]|]);
    destruct Hin.
Qed.





(** ** The allocation policy outside the clamp *)

(** X5.  A request of at most nine tenths of the free memory is passed to
    the allocation unchanged, for a free memory below [2^52]. *)
Theorem request_within_nine_tenths_is_kept :
  (forall free requested,
      0 < free < 2 ^ 52 ->
      10 * requested <= 9 * free ->
      effective_size requested free = requested)
  /\ (forall rt argv,
         0 < free_memory rt < 2 ^ 52 ->
         10 * requested_size argv <= 9 * free_memory rt ->
         alloc_size rt argv = requested_size argv).
Proof.
  assert (H : forall free requested,
             0 < free < 2 ^ 52 ->
             10 * requested <= 9 * free ->
             effective_size requested free = requested).
  { intros free requested Hfree Hle. unfold effective_size.
    rewrite (max_alloc_size_exact free Hfree). unfold ceiling_spec.
    pose proof (Z.div_mod free 10 ltac:(lia)) as Hd.
    pose proof (Z.mod_pos_bound free 10 ltac:(lia)) as Hm.
    destruct (Z.gtb_spec requested (free - free / 10)); lia. }
  split; [exact H|].
  intros rt argv Hfree Hle. unfold alloc_size. now apply H.
Qed.

Lemma request_within_nine_tenths_is_kept_witness :
  effective_size 9000000000 10000000000 = 9000000000
  /\ alloc_size (healthy_runtime 10000000000 16000000000)
                ["cudaMemTest"; "--device=0"; "--alloc_mem_gb=9"]
     = requested_size ["cudaMemTest"; "--device=0"; "--alloc_mem_gb=9"].
Proof.
  split.
  - apply (proj1 request_within_nine_tenths_is_kept);
      vm_compute; intuition discriminate.
  - apply (proj2 request_within_nine_tenths_is_kept);
      vm_compute; intuition discriminate.
Defined.

Lemma requested_size_range (argv : list string) :
  0 < requested_size argv < 2 ^ 64.
Proof.
  unfold requested_size.
  destruct (checkCmdLineFlag argv ALLOC_MEM_OPT_STR).
  - apply requested_of_gb_range, getCmdLineArgumentInt_range.
  - cbn. lia.
Qed.

(** X6.  With no free memory (a device that reports 0, or a failed query
    that leaves 0 in [free_memory]) every request is clamped to 0: the clamp
    notice announces 0 and [cudaMalloc] is called for 0 bytes. *)
Theorem zero_free_memory_allocates_zero_bytes (rt : Runtime) (argv : list string) :
  free_memory rt = 0 ->
  alloc_size rt argv = 0
  /\ (device_selected rt argv ->
      In (Stdout ("Invalid allocation amount specified, using 0" ++ nl))
         (trace (main rt argv))
      /\ In (CallMalloc 0) (trace (main rt argv))).
Proof.
  intros Hfree.
  assert (Hmax : max_alloc_size (free_memory rt) = 0) by (rewrite Hfree; reflexivity).
  pose proof (requested_size_range argv) as Hreq.
  assert (Hgt : (requested_size argv >? max_alloc_size (free_memory rt)) = true).
  { rewrite Hmax. apply Z.gtb_lt. lia. }
  assert (Hsize : alloc_size rt argv = 0).
  { unfold alloc_size, effective_size. now rewrite Hgt. }
  split; [exact Hsize|].
  intros Hsel. apply device_selected_iff in Hsel. destruct Hsel as [Hh [Hd Hs]].
  rewrite (trace_after_selection rt argv Hh Hd Hs). cbv zeta.
  unfold trace_to_malloc, size_report. rewrite Hgt, Hmax, Hsize.
  split; apply in_or_app; left; right; right; apply in_or_app.
  - left. apply in_or_app. right. apply in_or_app. right. left. reflexivity.
  - right. left. reflexivity.
Qed.

Lemma zero_free_memory_allocates_zero_bytes_witness :
  let rt := scripted_runtime 0 30 0 0 0 0 0 in
  let argv := ["cudaMemTest"; "--device=0"] in
  free_memory rt = 0 /\ device_selected rt argv
  /\ In (CallMalloc 0) (trace (main rt argv)).
Proof.
  intros rt argv.
  assert (H1 : free_memory rt = 0) by reflexivity.
  assert (H2 : device_selected rt argv).
  { apply device_selected_iff. split; [reflexivity|]. split; reflexivity. }
  split; [exact H1 | split; [exact H2|]].
  exact (proj2 (proj2 (zero_free_memory_allocates_zero_bytes rt argv H1) H2)).
Defined.

(** X7.  A negative gigabyte count is not rejected: converted to [size_t]
    and multiplied by 10^9 it wraps to [2^64 + requestedGb * 10^9], which is
    above every free memory up to 16,299,260,425,709,551,615 bytes, so the
    ceiling is what gets allocated. *)
Theorem negative_request_allocates_the_ceiling (requestedGb free : Z) :
  Int.INT_MIN <= requestedGb < 0 ->
  0 < free <= 16299260425709551615 ->
  requested_of_gb (alloc_mem_gb_of_int requestedGb)
  = 2 ^ 64 + requestedGb * 1000000000
  /\ effective_of_gb requestedGb free = max_alloc_size free.
Proof.
  unfold Int.INT_MIN. change (2 ^ 31) with 2147483648. intros Hgb Hfree.
  assert (Hreq : requested_of_gb (alloc_mem_gb_of_int requestedGb)
                 = 2 ^ 64 + requestedGb * 1000000000).
  { unfold requested_of_gb, alloc_mem_gb_of_int, Int.to_size_t, Int.unsigned.
    change (2 ^ 64) with 18446744073709551616.
    replace (requestedGb mod 18446744073709551616)
      with (requestedGb + 18446744073709551616)
      by (apply (Z.mod_unique_pos _ _ (-1)); lia).
    destruct (Z.eqb_spec (requestedGb + 18446744073709551616) 0) as [E|E]; [lia|].
    replace ((requestedGb + 18446744073709551616) * 1000 * 1000 * 1000)
      with (requestedGb * 1000000000 + 18446744073709551616
            + 999999999 * 18446744073709551616) by ring.
    rewrite Z.mod_add by lia. rewrite Z.mod_small by lia. lia. }
  split; [exact Hreq|].
  unfold effective_of_gb, effective_size. rewrite Hreq.
  destruct (max_alloc_size_range free) as [_ Hc].
  { change (2 ^ 64) with 18446744073709551616. lia. }
  change (2 ^ 64) with 18446744073709551616.
  destruct (Z.gtb_spec (18446744073709551616 + requestedGb * 1000000000)
                       (max_alloc_size free)); [reflexivity | lia].
Qed.

Lemma negative_request_allocates_the_ceiling_witness :
  Int.INT_MIN <= -1 < 0
  /\ 0 < 10000000000 <= 16299260425709551615
  /\ effective_of_gb (-1) 10000000000 = max_alloc_size 10000000000.
Proof.
  assert (H1 : Int.INT_MIN <= -1 < 0) by (vm_compute; intuition discriminate).
  assert (H2 : 0 < 10000000000 <= 16299260425709551615) by lia.
  split; [exact H1 | split; [exact H2|]].
  exact (proj2 (negative_request_allocates_the_ceiling (-1) 10000000000 H1 H2)).
Defined.

(** ** The argument helpers beyond the listed examples *)

Lemma count_leading_le (d : ascii) (s : string) :
  (count_leading d s <= String.length s)%nat.
Proof.
  induction s as [|c s IH]; cbn [count_leading String.length]; [lia|].
  destruct (Ascii.eqb c d); lia.
Qed.

Lemma count_leading_chars (d : ascii) (s : string) (i : nat) :
  (i < count_leading d s)%nat -> char_at s i = d.
Proof.
  revert i. induction s as [|c s IH]; intros i; cbn [count_leading]; [lia|].
  destruct (Ascii.eqb_spec c d) as [->|Hne]; [|lia].
  destruct i as [|i]; [reflexivity|].
  intros Hi. apply (IH i). lia.
Qed.

Lemma count_leading_stop (d : ascii) (s : string) :
  (count_leading d s < String.length s)%nat ->
  char_at s (count_leading d s) <> d.
Proof.
  induction s as [|c s IH]; cbn [count_leading String.length]; [lia|].
  destruct (Ascii.eqb_spec c d) as [->|Hne].
  - intros H. apply IH. lia.
  - intros _. exact Hne.
Qed.

(** X8.  The offset returned by [stringRemoveDelimiter] is safe to index
    with: it is 0, or it is the number of leading delimiters and at least
    two characters follow them; the characters before the offset are all the
    delimiter and, when the offset is not 0, the character at the offset is
    not. *)
Theorem stringRemoveDelimiter_offset (delimiter : ascii) (s : string) :
  let r := stringRemoveDelimiter delimiter s in
  (r = 0 \/ (0 < r /\ r + 2 <= strlen s))
  /\ (forall i, (i < Z.to_nat r)%nat -> char_at s i = delimiter)
  /\ (0 < r -> char_at s (Z.to_nat r) <> delimiter).
Proof.
  unfold stringRemoveDelimiter, strlen.
  pose proof (count_leading_le delimiter s) as Hle.
  destruct (Z.geb_spec (Z.of_nat (count_leading delimiter s))
                       (Z.of_nat (String.length s) - 1)) as [Hge|Hlt].
  - split; [left; reflexivity|]. split; [intros i Hi; cbn in Hi; lia | lia].
  - split; [|split].
    + destruct (count_leading delimiter s); [left; reflexivity | right; lia].
    + intros i Hi. rewrite Nat2Z.id in Hi. now apply count_leading_chars.
    + intros _. rewrite Nat2Z.id. apply count_leading_stop. lia.
Qed.

Lemma stringRemoveDelimiter_offset_witness :
  (forall i, (i < Z.to_nat (stringRemoveDelimiter "-" "--device=1"))%nat ->
             char_at "--device=1" i = "-"%char)
  /\ char_at "--device=1" (Z.to_nat (stringRemoveDelimiter "-" "--device=1"))
     <> "-"%char.
Proof.
  split.
  - exact (proj1 (proj2 (stringRemoveDelimiter_offset "-" "--device=1"))).
  - apply (proj2 (proj2 (stringRemoveDelimiter_offset "-" "--device=1"))).
    reflexivity.
Defined.

(** *** What a reported flag looks like *)

Lemma dashes_prefix (n : nat) (s : string) :
  (n <= count_leading "-" s)%nat -> s = dashes n ++ advance n s.
Proof.
  revert s. induction n as [|n IH]; intros s Hn; [reflexivity|].
  destruct s as [|c s]; cbn [count_leading] in Hn; [lia|].
  destruct (Ascii.eqb_spec c "-") as [->|Hne]; [|lia].
  cbn [dashes advance String.append]. f_equal. apply IH. lia.
Qed.

Lemma stringRemoveDelimiter_le_count (s : string) :
  (Z.to_nat (stringRemoveDelimiter "-" s) <= count_leading "-" s)%nat.
Proof.
  unfold stringRemoveDelimiter.
  destruct (_ >=? _); [cbn; lia | rewrite Nat2Z.id; lia].
Qed.

Lemma strchr_split (s : string) (c : ascii) (p : nat) :
  strchr s c = Some p ->
  exists pre post, s = pre ++ String c post /\ String.length pre = p.
Proof.
  revert p. induction s as [|a s IH]; intros p; cbn [strchr]; [discriminate|].
  destruct (Ascii.eqb_spec a c) as [->|Hne].
  - intros H. injection H as <-. exists "", s. split; reflexivity.
  - destruct (strchr s c) as [k|]; [|discriminate].
    intros H. injection H as <-.
    destruct (IH k eq_refl) as [pre [post [-> Hl]]].
    exists (String a pre), post. split; [reflexivity|]. cbn. now rewrite Hl.
Qed.

Lemma code_inj (a b : ascii) : code a = code b -> a = b.
Proof.
  unfold code. intros H. apply Nat2Z.inj in H.
  rewrite <- (ascii_nat_embedding a), <- (ascii_nat_embedding b). now rewrite H.
Qed.

Lemma strncasecmp_zero_lower (name ref rest : string) :
  String.length name = String.length ref ->
  strncasecmp (name ++ rest) ref (String.length ref) = 0 ->
  lower name = lower ref.
Proof.
  revert ref. induction name as [|a name IH]; intros [|b ref] Hlen;
    cbn [String.length] in Hlen; try discriminate Hlen; [reflexivity|].
  cbn [String.append String.length strncasecmp lower].
  destruct (Ascii.eqb_spec (tolower a) (tolower b)) as [Heq|Hne].
  - intros H. rewrite Heq. f_equal. apply IH; [lia | exact H].
  - intros H. exfalso. apply Hne, code_inj. lia.
Qed.

(** An argument that sets [bFound] in [checkCmdLineFlag] is made of dashes,
    the name in some letter case, and then nothing or [=value]. *)
Lemma flag_matches_shape (ref arg : string) :
  flag_matches ref arg = true ->
  exists k name rest,
    arg = dashes k ++ name ++ rest /\ lower name = lower ref /\ flag_tail rest.
Proof.
  unfold flag_matches. intros H. apply andb_true_iff in H.
  destruct H as [Hlen Hcmp]. apply Z.eqb_eq in Hlen, Hcmp.
  set (k := Z.to_nat (stringRemoveDelimiter "-" arg)) in *.
  pose proof (dashes_prefix k arg (stringRemoveDelimiter_le_count arg)) as Harg.
  set (body := advance k arg) in *.
  unfold strlen in *. rewrite Nat2Z.id in Hcmp.
  destruct (strchr body "=") as [p|] eqn:Hchr.
  - destruct (strchr_split body "=" p Hchr) as [pre [post [Hb Hp]]].
    exists k, pre, (String "=" post).
    split; [rewrite Harg at 1; now rewrite Hb|].
    split; [|right; now exists post].
    apply (strncasecmp_zero_lower pre ref (String "=" post)); [lia|].
    now rewrite <- Hb.
  - exists k, body, "".
    split; [rewrite Harg at 1; now rewrite append_empty_r|].
    split; [|left; reflexivity].
    apply (strncasecmp_zero_lower body ref ""); [lia|].
    now rewrite append_empty_r.
Qed.

(** X9.  [checkCmdLineFlag] never reports a flag that is not there: when it
    answers true, some argument after [argv[0]] is made of dashes, the name
    in some letter case, and then nothing or [=value].  For a name of two
    characters or more without [=] and without a leading dash, these are
    exactly the argument lists for which it answers true. *)
Theorem checkCmdLineFlag_characterised :
  (forall argv string_ref,
      checkCmdLineFlag argv string_ref = true ->
      exists arg k name rest,
        In arg (tl argv) /\ arg = dashes k ++ name ++ rest
        /\ lower name = lower string_ref /\ flag_tail rest)
  /\ (forall argv string_ref,
         (2 <= String.length string_ref)%nat ->
         strchr string_ref "=" = None ->
         count_leading "-" string_ref = O ->
         (checkCmdLineFlag argv string_ref = true
          <-> exists k name rest,
                In (dashes k ++ name ++ rest) (tl argv)
                /\ lower name = lower string_ref /\ flag_tail rest)).
Proof.
  assert (Hsound : forall argv ref,
             checkCmdLineFlag argv ref = true ->
             exists arg k name rest,
               In arg (tl argv) /\ arg = dashes k ++ name ++ rest
               /\ lower name = lower ref /\ flag_tail rest).
  { intros argv ref H. rewrite checkCmdLineFlag_existsb in H.
    apply existsb_exists in H. destruct H as [arg [Hin Hm]].
    destruct (flag_matches_shape ref arg Hm) as [k [name [rest [Ha [Hl Ht]]]]].
    exists arg, k, name, rest. auto. }
  split; [exact Hsound|].
  intros argv ref Hlen Heq Hdash. split.
  - intros H. destruct (Hsound argv ref H) as [arg [k [name [rest [Hin [-> [Hl Ht]]]]]]].
    exists k, name, rest. auto.
  - intros [k [name [rest [Hin [Hl Ht]]]]].
    apply (checkCmdLineFlag_In argv ref _ Hin).
    apply flag_matches_token; auto.
    right. rewrite (lower_length_eq _ _ Hl). lia.
Qed.

Lemma checkCmdLineFlag_characterised_witness :
  checkCmdLineFlag ["cudaMemTest"; "x"; "--HELP=now"] "help" = true
  /\ exists arg k name rest,
       In arg (tl ["cudaMemTest"; "x"; "--HELP=now"])
       /\ arg = dashes k ++ name ++ rest
       /\ lower name = lower "help" /\ flag_tail rest.
Proof.
  assert (H : checkCmdLineFlag ["cudaMemTest"; "x"; "--HELP=now"] "help" = true)
    by reflexivity.
  split; [exact H|].
  exact (proj1 checkCmdLineFlag_characterised _ _ H).
Defined.

Lemma existsb_reverse {A : Type} (f : A -> bool) (l : list A) :
  existsb f (rev l) = existsb f l.
Proof.
  induction l as [|a l IH]; [reflexivity|].
  cbn [rev existsb]. rewrite existsb_app, IH. cbn [existsb].
  rewrite orb_false_r. apply orb_comm.
Qed.

(** X10.  The answer of [checkCmdLineFlag] is the disjunction over the
    arguments after [argv[0]]: it does not depend on their order, further
    arguments never hide a flag, and [argv[0]] is not looked at. *)
Theorem checkCmdLineFlag_any_argument (prog : string) (args more : list string)
    (string_ref : string) :
  checkCmdLineFlag (prog :: args ++ more) string_ref
  = checkCmdLineFlag (prog :: args) string_ref
    || checkCmdLineFlag (prog :: more) string_ref
  /\ checkCmdLineFlag (prog :: args ++ more) string_ref
     = checkCmdLineFlag (prog :: more ++ args) string_ref
  /\ checkCmdLineFlag (prog :: rev args) string_ref
     = checkCmdLineFlag (prog :: args) string_ref
  /\ (forall prog', checkCmdLineFlag (prog' :: args) string_ref
                    = checkCmdLineFlag (prog :: args) string_ref).
Proof.
  rewrite !checkCmdLineFlag_existsb. cbn [tl].
  rewrite !existsb_app, existsb_reverse.
  split; [reflexivity|]. split; [apply orb_comm|]. split; [reflexivity|].
  intros prog'. now rewrite !checkCmdLineFlag_existsb.
Qed.

(** *** The value read by [getCmdLineArgumentInt] *)

Lemma advance_length (a b : string) : advance (String.length a) (a ++ b) = b.
Proof. induction a as [|c a IH]; [reflexivity | exact IH]. Qed.

(** The loop body of [getCmdLineArgumentInt] on an argument that starts,
    after its dashes, with the name in some letter case. *)
Lemma arg_int_value_token (ref name rest : string) (k : nat) :
  lower name = lower ref ->
  (1 <= String.length ref)%nat ->
  count_leading "-" ref = O ->
  (k = O \/ (2 <= String.length name + String.length rest)%nat) ->
  arg_int_value ref (dashes k ++ name ++ rest) = Some (value_after rest).
Proof.
  intros Hl Hlen Hdash Hk.
  assert (Hn : String.length name = String.length ref)
    by now apply lower_length_eq.
  assert (Hbody : count_leading "-" (name ++ rest) = O).
  { destruct name as [|a name]; [cbn in Hn; lia|].
    apply count_leading_append; [discriminate|].
    apply (count_leading_lower _ ref); auto; discriminate. }
  unfold arg_int_value.
  rewrite stringRemoveDelimiter_dashes by (rewrite ?length_append; auto).
  rewrite Nat2Z.id, advance_dashes.
  unfold strlen. rewrite Nat2Z.id, strncasecmp_prefix by exact Hl.
  cbn [Z.eqb]. rewrite length_append, <- Hn.
  destruct rest as [|c v].
  - cbn [String.length value_after].
    destruct (Z.leb_spec (Z.of_nat (String.length name) + 1)
                         (Z.of_nat (String.length name + 0))); [lia | reflexivity].
  - cbn [String.length value_after].
    destruct (Z.leb_spec (Z.of_nat (String.length name) + 1)
                         (Z.of_nat (String.length name + S (String.length v))));
      [|lia].
    unfold char_at. rewrite advance_length.
    destruct (Ascii.eqb c "=").
    + replace (Z.to_nat (Z.of_nat (String.length name) + 1))
        with (S (String.length name)) by lia.
      f_equal. f_equal.
      change (S (String.length name)) with (String.length (String c name)).
      clear. induction name as [|a name IH]; [reflexivity | exact IH].
    + rewrite Z.add_0_r, Nat2Z.id, advance_length. reflexivity.
Qed.

(** The loop of [getCmdLineArgumentInt], one more argument at a time. *)
Lemma getCmdLineArgumentInt_fold_snoc (ref : string) (args : list string)
    (a : string) (st : bool * Z) :
  fold_left (fun st arg =>
               match arg_int_value ref arg with
               | Some v => (true, v)
               | None => st
               end) (args ++ [a]) st
  = match arg_int_value ref a with
    | Some v => (true, v)
    | None => fold_left (fun st arg =>
                           match arg_int_value ref arg with
                           | Some v => (true, v)
                           | None => st
                           end) args st
    end.
Proof. rewrite fold_left_app. reflexivity. Qed.

(** The value of the last matching argument is the one returned. *)
Lemma last_match_value
    (prog : string) (args more : list string)
    (string_ref name rest : string) (k : nat) :
  lower name = lower string_ref ->
  (1 <= String.length string_ref)%nat ->
  count_leading "-" string_ref = O ->
  (k = O \/ (2 <= String.length name + String.length rest)%nat) ->
  (forall arg, In arg more -> arg_int_value string_ref arg = None) ->
  getCmdLineArgumentInt (prog :: args ++ (dashes k ++ name ++ rest) :: more)
                        string_ref
  = value_after rest.
Proof.
  intros Hl Hlen Hdash Hk Hmore.
  unfold getCmdLineArgumentInt. cbn [tl].
  set (token := dashes k ++ name ++ rest).
  replace (args ++ token :: more)%list with ((args ++ [token]) ++ more)%list
    by (rewrite <- app_assoc; reflexivity).
  subst token.
  rewrite fold_left_app, fold_int_none by exact Hmore.
  rewrite getCmdLineArgumentInt_fold_snoc.
  now rewrite arg_int_value_token.
Qed.

(** X11.  [getCmdLineArgumentInt] reads the last argument that starts, after
    its dashes, with the name in any letter case, whatever else follows the
    name: its value is 0 when nothing follows, else [atoi] of what follows,
    after one [=] if there is one.  Earlier arguments, matching or not, play
    no part. *)
Theorem getCmdLineArgumentInt_reads_last_match
    (prog : string) (args more : list string)
    (string_ref name rest : string) (k : nat) :
  lower name = lower string_ref ->
  (1 <= String.length string_ref)%nat ->
  count_leading "-" string_ref = O ->
  (k = O \/ (2 <= String.length name + String.length rest)%nat) ->
  (forall arg, In arg more -> arg_int_value string_ref arg = None) ->
  getCmdLineArgumentInt (prog :: args ++ (dashes k ++ name ++ rest) :: more)
                        string_ref
  = value_after rest.
Proof. apply last_match_value. Qed.

Lemma getCmdLineArgumentInt_reads_last_match_witness :
  (forall arg, In arg ["--alloc_mem_gb=4"] -> arg_int_value "device" arg = None)
  /\ getCmdLineArgumentInt
       ("cudaMemTest" :: ["--device=3"] ++ (dashes 1 ++ "DEVICES" ++ "=9")
                         :: ["--alloc_mem_gb=4"]) "device"
     = 0.
Proof.
  assert (H : forall arg, In arg ["--alloc_mem_gb=4"] ->
                          arg_int_value "device" arg = None).
  { intros arg [<-|[]]. reflexivity. }
  split; [exact H|].
  exact (getCmdLineArgumentInt_reads_last_match
           "cudaMemTest" ["--device=3"] ["--alloc_mem_gb=4"]
           "device" "DEVICE" "S=9" 1%nat
           eq_refl ltac:(simpl; lia) eq_refl ltac:(right; simpl; lia) H).
Defined.

Lemma flag_matches_int_value (ref arg : string) :
  flag_matches ref arg = true -> arg_int_value ref arg <> None.
Proof.
  unfold flag_matches, arg_int_value. intros H.
  apply andb_true_iff in H. destruct H as [_ ->].
  destruct (_ <=? _); discriminate.
Qed.

Lemma fold_int_last (ref : string) (args : list string) (st : bool * Z) :
  (exists a, In a args /\ arg_int_value ref a <> None) ->
  exists a v, In a args /\ arg_int_value ref a = Some v
              /\ fold_left (fun st arg =>
                              match arg_int_value ref arg with
                              | Some v => (true, v)
                              | None => st
                              end) args st = (true, v).
Proof.
  induction args as [|a args IH] using rev_ind; intros [x [Hin Hx]];
    [destruct Hin|].
  rewrite getCmdLineArgumentInt_fold_snoc.
  destruct (arg_int_value ref a) as [v|] eqn:Ea.
  - exists a, v. split; [apply in_or_app; right; left; reflexivity|]. auto.
  - apply in_app_or in Hin. destruct Hin as [Hin|[<-|[]]]; [|congruence].
    destruct IH as [b [v [Hb [Hv Hf]]]]; [now exists x|].
    exists b, v. split; [apply in_or_app; now left|]. auto.
Qed.

(** X12.  The two lookups agree on presence: every argument that
    [checkCmdLineFlag] accepts is also accepted by [getCmdLineArgumentInt],
    so after a positive [checkCmdLineFlag] the integer returned is read from
    an argument and is never the 0 of a flag that was not found. *)
Theorem present_flag_has_a_parsed_value (argv : list string) (string_ref : string) :
  checkCmdLineFlag argv string_ref = true ->
  exists arg v,
    In arg (tl argv) /\ arg_int_value string_ref arg = Some v
    /\ getCmdLineArgumentInt argv string_ref = v.
Proof.
  intros H. rewrite checkCmdLineFlag_existsb in H.
  apply existsb_exists in H. destruct H as [x [Hin Hm]].
  destruct (fold_int_last string_ref (tl argv) (false, -1)) as [a [v [Ha [Hv Hf]]]].
  { exists x. split; [exact Hin | now apply flag_matches_int_value]. }
  exists a, v. split; [exact Ha | split; [exact Hv|]].
  unfold getCmdLineArgumentInt. now rewrite Hf.
Qed.

Lemma present_flag_has_a_parsed_value_witness :
  checkCmdLineFlag ["cudaMemTest"; "--device=1"; "--device5x"] "device" = true
  /\ exists arg v,
       In arg (tl ["cudaMemTest"; "--device=1"; "--device5x"])
       /\ arg_int_value "device" arg = Some v
       /\ getCmdLineArgumentInt ["cudaMemTest"; "--device=1"; "--device5x"]
                                "device" = v.
Proof.
  assert (H : checkCmdLineFlag ["cudaMemTest"; "--device=1"; "--device5x"]
                               "device" = true) by reflexivity.
  split; [exact H|].
  exact (present_flag_has_a_parsed_value _ _ H).
Defined.

(** *** Names of one character, and names of another length *)

(** X13.  A flag name of one character is recognised bare and with a value,
    but not behind dashes alone: for a character [c] other than [-] and [=],
    the argument [c] and the arguments [-c=value], [--c=value], ... report
    the flag [c] present, while [-c], [--c], ... do not. *)
Theorem one_character_flag (prog : string) (c : ascii) (k : nat) (value : string) :
  Ascii.eqb c "-" = false -> Ascii.eqb c "=" = false ->
  checkCmdLineFlag [prog; String c ""] (String c "") = true
  /\ checkCmdLineFlag [prog; dashes k ++ String c (String "=" value)]
                      (String c "") = true
  /\ ((1 <= k)%nat ->
      checkCmdLineFlag [prog; dashes k ++ String c ""] (String c "") = false).
Proof.
  intros Hdash Heq.
  assert (Hchr : strchr (String c "") "=" = None)
    by (cbn [strchr]; now rewrite Heq).
  assert (Hcnt : count_leading "-" (String c "") = O)
    by (cbn [count_leading]; now rewrite Hdash).
  split; [|split].
  - apply (checkCmdLineFlag_In _ _ (String c "")); [left; reflexivity|].
    apply (flag_matches_token (String c "") (String c "") "" 0);
      auto; left; reflexivity.
  - apply (checkCmdLineFlag_In _ _ (dashes k ++ String c (String "=" value)));
      [left; reflexivity|].
    apply (flag_matches_token (String c "") (String c "") (String "=" value) k);
      auto.
    + right. now exists value.
    + right. cbn [String.length]. lia.
  - intros Hk. rewrite checkCmdLineFlag_existsb. cbn [tl existsb].
    rewrite (proj2 (single_character_flag_with_dashes k c Hk Hdash Heq)).
    reflexivity.
Qed.

Lemma one_character_flag_witness :
  checkCmdLineFlag ["cudaMemTest"; "?"] "?" = true
  /\ checkCmdLineFlag ["cudaMemTest"; dashes 2 ++ "?=1"] "?" = true
  /\ checkCmdLineFlag ["cudaMemTest"; dashes 2 ++ "?"] "?" = false.
Proof.
  pose proof (one_character_flag "cudaMemTest" "?" 2 "1" eq_refl eq_refl)
    as [H1 [H2 H3]].
  split; [exact H1 | split; [exact H2|]].
  apply H3. lia.
Defined.

(** An argument whose name part has another length than the name does not
    set [bFound]. *)
Lemma flag_matches_other_length (string_ref name rest : string) (k : nat) :
  String.length name <> String.length string_ref ->
  strchr name "=" = None ->
  count_leading "-" (name ++ rest) = O ->
  flag_tail rest ->
  (k = O \/ (2 <= String.length name + String.length rest)%nat) ->
  flag_matches string_ref (dashes k ++ name ++ rest) = false.
Proof.
  intros Hlen Heq Hdash Hrest Hk.
  unfold flag_matches.
  rewrite stringRemoveDelimiter_dashes by (rewrite ?length_append; auto).
  rewrite Nat2Z.id, advance_dashes.
  rewrite (strchr_append_none name rest "=") by exact Heq.
  unfold strlen.
  replace (Z.of_nat (String.length string_ref) =?
           match match strchr rest "=" with
                 | Some k0 => Some (String.length name + k0)%nat
                 | None => None
                 end with
           | Some equal_pos => Z.of_nat equal_pos
           | None => Z.of_nat (String.length (name ++ rest))
           end) with false; [reflexivity|].
  symmetry. apply Z.eqb_neq.
  destruct Hrest as [->|[v ->]]; cbn [strchr Ascii.eqb Bool.eqb].
  - rewrite length_append. cbn [String.length]. lia.
  - lia.
Qed.

(** X14.  The name must fill the token up to its end or its [=]: an
    argument whose part between the dashes and the first [=] has another
    length than the name is never a match for [checkCmdLineFlag], in any
    letter case; so [--device3], [--devices=1] and [--dev=1] are not the
    flag [device]. *)
Theorem flag_of_another_length_is_not_reported
    (string_ref name rest : string) (k : nat) :
  String.length name <> String.length string_ref ->
  strchr name "=" = None ->
  count_leading "-" (name ++ rest) = O ->
  flag_tail rest ->
  (k = O \/ (2 <= String.length name + String.length rest)%nat) ->
  flag_matches string_ref (dashes k ++ name ++ rest) = false
  /\ forall prog, checkCmdLineFlag [prog; dashes k ++ name ++ rest] string_ref
                  = false.
Proof.
  intros Hlen Heq Hdash Hrest Hk.
  assert (Hm : flag_matches string_ref (dashes k ++ name ++ rest) = false)
    by now apply flag_matches_other_length.
  split; [exact Hm|].
  intros prog. rewrite checkCmdLineFlag_existsb. cbn [tl existsb].
  now rewrite Hm.
Qed.

Lemma flag_of_another_length_is_not_reported_witness :
  String.length "devices" <> String.length "device"
  /\ strchr "devices" "=" = None
  /\ count_leading "-" ("devices" ++ "=1") = O
  /\ flag_tail "=1"
  /\ checkCmdLineFlag ["cudaMemTest"; dashes 2 ++ "devices" ++ "=1"] "device"
     = false.
Proof.
  assert (H1 : String.length "devices" <> String.length "device") by discriminate.
  assert (H2 : strchr "devices" "=" = None) by reflexivity.
  assert (H3 : count_leading "-" ("devices" ++ "=1") = O) by reflexivity.
  assert (H4 : flag_tail "=1") by (right; exists "1"; reflexivity).
  split; [exact H1 | split; [exact H2 | split; [exact H3 | split; [exact H4|]]]].
  exact (proj2 (flag_of_another_length_is_not_reported
                  "device" "devices" "=1" 2 H1 H2 H3 H4
                  ltac:(right; simpl; lia)) "cudaMemTest").
Defined.

(** *** Decimal values *)

Lemma digits_value_string_of_uint (d : Decimal.uint) (acc : Z) :
  digits_value (NilEmpty.string_of_uint d) acc = uint_value d acc.
Proof.
  revert acc. induction d as [|d IH|d IH|d IH|d IH|d IH|d IH|d IH|d IH|d IH|d IH];
    intros acc; [reflexivity|..];
    cbn [NilEmpty.string_of_uint uint_value];
    rewrite <- IH; cbn [digits_value];
    match goal with
    | |- context [isdigit ?c] => change (isdigit c) with true
    end;
    match goal with
    | |- context [code ?c] =>
        let v := eval vm_compute in (code c) in change (code c) with v
    end;
    cbv iota; f_equal; lia.
Qed.

Lemma uint_value_of_uint_acc (d : Decimal.uint) (acc : positive) :
  Z.pos (Pos.of_uint_acc d acc) = uint_value d (Z.pos acc).
Proof.
  revert acc. induction d as [|d IH|d IH|d IH|d IH|d IH|d IH|d IH|d IH|d IH|d IH];
    intros acc; [reflexivity|..];
    cbn [Pos.of_uint_acc uint_value]; rewrite IH; f_equal; lia.
Qed.

Lemma uint_value_of_uint (d : Decimal.uint) :
  Z.of_N (Pos.of_uint d) = uint_value d 0.
Proof.
  induction d as [|d IH|d IH|d IH|d IH|d IH|d IH|d IH|d IH|d IH|d IH];
    [reflexivity | exact IH |..];
    cbn [Pos.of_uint uint_value Z.of_N]; rewrite uint_value_of_uint_acc;
    reflexivity.
Qed.

Lemma strtol_digits (d : Decimal.uint) :
  d <> Decimal.Nil ->
  strtol (NilEmpty.string_of_uint d)
  = Z.min Int.LONG_MAX (uint_value d 0).
Proof.
  intros Hd. rewrite <- digits_value_string_of_uint.
  destruct d; [congruence|..]; reflexivity.
Qed.

Lemma strtol_minus (s : string) :
  strtol (String "-" s) = Z.max Int.LONG_MIN (- digits_value s 0).
Proof. reflexivity. Qed.

(** [atoi] reads back what [%ld] prints, for every [int]. *)
Lemma atoi_fmt_ld (n : Z) :
  Int.INT_MIN <= n <= Int.INT_MAX -> atoi (fmt_ld n) = n.
Proof.
  unfold Int.INT_MIN, Int.INT_MAX. change (2 ^ 31) with 2147483648. intros Hn.
  assert (Hlong : Int.to_long n = n).
  { unfold Int.to_long, Int.signed.
    change (2 ^ (64 - 1)) with 9223372036854775808.
    change (2 ^ 64) with 18446744073709551616.
    rewrite Z.mod_small by lia. lia. }
  assert (Hint : Int.to_int n = n).
  { unfold Int.to_int, Int.signed.
    change (2 ^ (32 - 1)) with 2147483648.
    change (2 ^ 32) with 4294967296.
    rewrite Z.mod_small by lia. lia. }
  unfold atoi, fmt_ld. rewrite Hlong.
  unfold Int.LONG_MAX, Int.LONG_MIN in *.
  destruct n as [|p|p].
  - reflexivity.
  - cbn [Z.to_int NilZero.string_of_int].
    pose proof (Unsigned.to_uint_nonnil p) as Hnn.
    assert (Hs : NilZero.string_of_uint (Pos.to_uint p)
                 = NilEmpty.string_of_uint (Pos.to_uint p)).
    { unfold NilZero.string_of_uint. destruct (Pos.to_uint p); congruence. }
    rewrite Hs, strtol_digits by exact Hnn.
    rewrite <- uint_value_of_uint, Unsigned.of_to.
    unfold Int.LONG_MAX. change (2 ^ 63) with 9223372036854775808.
    cbn [Z.of_N]. rewrite Z.min_r by lia. exact Hint.
  - cbn [Z.to_int NilZero.string_of_int].
    pose proof (Unsigned.to_uint_nonnil p) as Hnn.
    assert (Hs : NilZero.string_of_uint (Pos.to_uint p)
                 = NilEmpty.string_of_uint (Pos.to_uint p)).
    { unfold NilZero.string_of_uint. destruct (Pos.to_uint p); congruence. }
    rewrite Hs, strtol_minus, digits_value_string_of_uint.
    rewrite <- uint_value_of_uint, Unsigned.of_to.
    unfold Int.LONG_MIN. change (2 ^ 63) with 9223372036854775808.
    cbn [Z.of_N]. rewrite Z.max_r by lia. exact Hint.
Qed.

(** X15.  Writing and reading back: for every [int] [n], the argument
    [--name=<n>], with [n] printed in decimal as [%ld] does, any number of
    dashes and any letter case of the name, gives [n] back from
    [getCmdLineArgumentInt] when it is the last argument. *)
Theorem getCmdLineArgumentInt_reads_decimal
    (prog : string) (args : list string) (string_ref name : string)
    (k : nat) (n : Z) :
  lower name = lower string_ref ->
  (1 <= String.length string_ref)%nat ->
  count_leading "-" string_ref = O ->
  Int.INT_MIN <= n <= Int.INT_MAX ->
  getCmdLineArgumentInt
    (prog :: args ++ [dashes k ++ name ++ String "=" (fmt_ld n)]) string_ref
  = n.
Proof.
  intros Hl Hlen Hdash Hn.
  rewrite (last_match_value
             prog args [] string_ref name (String "=" (fmt_ld n)) k Hl Hlen Hdash).
  - cbn [value_after Ascii.eqb Bool.eqb]. now apply atoi_fmt_ld.
  - right. rewrite (lower_length_eq _ _ Hl). cbn [String.length]. lia.
  - intros arg [].
Qed.

Lemma getCmdLineArgumentInt_reads_decimal_witness :
  lower "Device" = lower "device"
  /\ Int.INT_MIN <= -2147483648 <= Int.INT_MAX
  /\ getCmdLineArgumentInt
       ("cudaMemTest" :: ["--device=1"]
          ++ [dashes 2 ++ "Device" ++ String "=" (fmt_ld (-2147483648))])
       "device"
     = -2147483648.
Proof.
  assert (H1 : lower "Device" = lower "device") by reflexivity.
  assert (H2 : Int.INT_MIN <= -2147483648 <= Int.INT_MAX)
    by (vm_compute; intuition discriminate).
  split; [exact H1 | split; [exact H2|]].
  exact (getCmdLineArgumentInt_reads_decimal
           "cudaMemTest" ["--device=1"] "device" "Device" 2 (-2147483648)
           H1 ltac:(simpl; lia) eq_refl H2).
Defined.

(** A run that gets past the two flag tests prints none of the lines of the
    two usage texts. *)
Lemma usage_not_printed_past_flag_tests (rt : Runtime) (argv : list string)
    (e : event) :
  help_requested argv = false ->
  checkCmdLineFlag argv "device" = true ->
  In e help_usage \/ In e no_device_usage ->
  ~ In e (trace (main rt argv)).
Proof.
  intros Hh Hd He Hin.
  assert (Hu : exists u, e = Stdout u
                         /\ (u = "A simple cuda memory testing tool" ++ nl
                             \/ u = "Usage --device=n (n >= 0 for deviceID)," ++ nl
                             \/ u = "Usage --device=n (n >= 0 for deviceID)" ++ nl
                             \/ u = "      --alloc_mem_gb=k (allocates k GB)" ++ nl)).
  { destruct He as [[<-|[<-|[<-|[]]]]|[<-|[<-|[<-|[]]]]]; eexists; split;
      try reflexivity; tauto. }
  destruct Hu as [u [-> Hu]].
  destruct (Z.eqb_spec (cudaSetDevice rt (devID argv)) cudaSuccess) as [Hs|Hs].
  - rewrite (trace_after_selection rt argv Hh Hd Hs) in Hin. cbv zeta in Hin.
    apply in_app_or in Hin. destruct Hin as [Hin|Hin].
    + unfold trace_to_malloc in Hin.
      destruct Hin as [H|[H|Hin]]; try discriminate H.
      apply in_app_or in Hin. destruct Hin as [Hin|[H|[]]]; [|discriminate H].
      apply In_size_report_stdout in Hin.
      destruct Hin as [s [r [Hs' Hp]]]. injection Hs' as <-.
      destruct Hu as [-> | [-> | [-> | ->]]]; destruct Hp as [Hp|[Hp|Hp]];
        discriminate Hp.
    + destruct (fst (cudaMalloc rt (alloc_size rt argv)) =? cudaSuccess);
        [destruct (cudaMemset rt (d_A rt argv) 15 (alloc_size rt argv) =? cudaSuccess);
         [destruct (cudaFree rt (d_A rt argv) =? cudaSuccess)|]|];
        cbn [negb In] in Hin;
        repeat (destruct Hin as [H|Hin];
                [first [discriminate H
                       | injection H as H;
                         destruct Hu as [-> | [-> | [-> | ->]]]; discriminate H]|]);
        destruct Hin.
  - apply Z.eqb_neq in Hs. rewrite main_paths, Hh, Hd in Hin.
    cbn [negb] in Hin. rewrite Hs in Hin. cbn [negb trace snd In] in Hin.
    destruct Hin as [H|[H|[]]]; [discriminate H|].
    injection H as H. destruct Hu as [-> | [-> | [-> | ->]]]; discriminate H.
Qed.

(** X16.  The device id is passed on as parsed: for every [int] [n],
    negative ones included, a run with the single argument [--device=<n>]
    prints no line of either usage text and starts by calling
    [cudaSetDevice(n)]; [main] itself never checks that [n >= 0]. *)
Theorem device_flag_selects_the_named_device
    (rt : Runtime) (prog : string) (n : Z) :
  Int.INT_MIN <= n <= Int.INT_MAX ->
  let argv := [prog; "--device=" ++ fmt_ld n] in
  help_requested argv = false
  /\ checkCmdLineFlag argv "device" = true
  /\ getCmdLineArgumentInt argv "device" = n
  /\ (exists rest, trace (main rt argv) = CallSetDevice n :: rest)
  /\ (forall e, In e help_usage \/ In e no_device_usage ->
                ~ In e (trace (main rt argv))).
Proof.
  intros Hn argv.
  assert (Htok : "--device=" ++ fmt_ld n
                 = dashes 2 ++ "device" ++ String "=" (fmt_ld n)) by reflexivity.
  assert (Htail : flag_tail (String "=" (fmt_ld n)))
    by (right; now exists (fmt_ld n)).
  assert (Hother : forall ref,
             String.length "device" <> String.length ref ->
             checkCmdLineFlag argv ref = false).
  { intros ref Hlen. unfold argv. rewrite Htok.
    rewrite checkCmdLineFlag_existsb. cbn [tl existsb].
    rewrite (flag_matches_other_length
               ref "device" (String "=" (fmt_ld n)) 2); auto.
    right. cbn [String.length]. lia. }
  assert (Hh : help_requested argv = false).
  { unfold help_requested. rewrite !Hother by discriminate. reflexivity. }
  assert (Hd : checkCmdLineFlag argv "device" = true).
  { apply (checkCmdLineFlag_In argv "device" ("--device=" ++ fmt_ld n));
      [left; reflexivity|].
    rewrite Htok. apply flag_matches_token; auto.
    right. cbn [String.length]. lia. }
  assert (Hi : getCmdLineArgumentInt argv "device" = n).
  { unfold argv. rewrite Htok.
    transitivity (value_after (String "=" (fmt_ld n))).
    - apply (last_match_value prog [] [] "device" "device"
               (String "=" (fmt_ld n)) 2); auto.
      + cbn [String.length]. lia.
      + right. cbn [String.length]. lia.
      + intros arg [].
    - cbn [value_after Ascii.eqb Bool.eqb]. now apply atoi_fmt_ld. }
  split; [exact Hh | split; [exact Hd | split; [exact Hi|]]].
  split; [|intros e; now apply usage_not_printed_past_flag_tests].
  rewrite main_paths, Hh, Hd. unfold devID. rewrite Hi. cbn [negb]. cbv zeta.
  unfold trace_to_malloc, devID. rewrite Hi.
  destruct (cudaSetDevice rt n =? cudaSuccess);
    [destruct (fst (cudaMalloc rt (alloc_size rt argv)) =? cudaSuccess);
     [destruct (cudaMemset rt (d_A rt argv) 15 (alloc_size rt argv) =? cudaSuccess);
      [destruct (cudaFree rt (d_A rt argv) =? cudaSuccess)|]|]|];
    cbn [negb trace snd app]; eexists; reflexivity.
Qed.

Lemma device_flag_selects_the_named_device_witness :
  let rt := healthy_runtime 10000000000 16000000000 in
  let argv := ["cudaMemTest"; "--device=" ++ fmt_ld (-3)] in
  Int.INT_MIN <= -3 <= Int.INT_MAX
  /\ (exists rest, trace (main rt argv) = CallSetDevice (-3) :: rest)
  /\ ~ In (Stdout ("A simple cuda memory testing tool" ++ nl))
          (trace (main rt argv)).
Proof.
  intros rt argv.
  assert (H : Int.INT_MIN <= -3 <= Int.INT_MAX)
    by (vm_compute; intuition discriminate).
  split; [exact H|].
  split.
  - exact (proj1 (proj2 (proj2 (proj2 (device_flag_selects_the_named_device
                                         rt "cudaMemTest" (-3) H))))).
  - apply (proj2 (proj2 (proj2 (proj2 (device_flag_selects_the_named_device
                                         rt "cudaMemTest" (-3) H))))).
    left. left. reflexivity.
Defined.

(** ** More on [main] *)

(** X17.  The two informational lines carry the values the run uses: when
    the query succeeds, the line [free mem <free> total mem <total>] is
    printed with the two sizes as signed decimals; the clamp notice is
    printed exactly when the request is above the ceiling, and the number it
    shows is the size then passed to [cudaMalloc]. *)
Theorem report_lines (rt : Runtime) (argv : list string) :
  device_selected rt argv ->
  (fst (cudaMemGetInfo rt) = cudaSuccess ->
   In (Stdout ("free mem " ++ fmt_ld (free_memory rt) ++ " total mem "
                 ++ fmt_ld (total_memory rt) ++ " " ++ nl))
      (trace (main rt argv)))
  /\ (requested_size argv > max_alloc_size (free_memory rt) ->
      In (Stdout ("Invalid allocation amount specified, using "
                    ++ fmt_lu (alloc_size rt argv) ++ nl))
         (trace (main rt argv))
      /\ In (CallMalloc (alloc_size rt argv)) (trace (main rt argv)))
  /\ (requested_size argv <= max_alloc_size (free_memory rt) ->
      forall r, ~ In (Stdout ("Invalid allocation " ++ r)) (trace (main rt argv))).
Proof.
  intros Hsel. apply device_selected_iff in Hsel. destruct Hsel as [Hh [Hd Hs]].
  rewrite (trace_after_selection rt argv Hh Hd Hs). cbv zeta.
  split; [|split].
  - intros Hq. apply in_or_app. left. unfold trace_to_malloc, size_report.
    rewrite Hq. right. right. left. reflexivity.
  - intros Hgt. apply Z.gt_lt, Z.gtb_lt in Hgt.
    assert (Hsize : alloc_size rt argv = max_alloc_size (free_memory rt)).
    { unfold alloc_size, effective_size. now rewrite Hgt. }
    split; apply in_or_app; left; unfold trace_to_malloc, size_report;
      rewrite Hgt, Hsize; right; right; apply in_or_app.
    + left. apply in_or_app. right. apply in_or_app. right. left. reflexivity.
    + right. left. reflexivity.
  - intros Hle r Hin.
    assert (Hgt : (requested_size argv >? max_alloc_size (free_memory rt)) = false).
    { destruct (Z.gtb_spec (requested_size argv)
                           (max_alloc_size (free_memory rt))); [lia | reflexivity]. }
    apply in_app_or in Hin. destruct Hin as [Hin|Hin].
    + unfold trace_to_malloc, size_report in Hin. rewrite Hgt in Hin.
      destruct (fst (cudaMemGetInfo rt) =? cudaSuccess);
        destruct (checkCmdLineFlag argv ALLOC_MEM_OPT_STR);
        cbn [app In] in Hin;
        repeat (destruct Hin as [H|Hin]; [discriminate H|]); destruct Hin.
    + destruct (fst (cudaMalloc rt (alloc_size rt argv)) =? cudaSuccess);
        [destruct (cudaMemset rt (d_A rt argv) 15 (alloc_size rt argv) =? cudaSuccess);
         [destruct (cudaFree rt (d_A rt argv) =? cudaSuccess)|]|];
        cbn [negb In] in Hin;
        repeat (destruct Hin as [H|Hin]; [discriminate H|]); destruct Hin.
Qed.

Lemma report_lines_witness :
  let rt := healthy_runtime 10000000000 16000000000 in
  let argv := ["cudaMemTest"; "--device=0"; "--alloc_mem_gb=50"] in
  device_selected rt argv
  /\ requested_size argv > max_alloc_size (free_memory rt)
  /\ In (Stdout ("Invalid allocation amount specified, using "
                   ++ fmt_lu (alloc_size rt argv) ++ nl))
        (trace (main rt argv)).
Proof.
  intros rt argv.
  assert (H1 : device_selected rt argv).
  { apply device_selected_iff. split; [reflexivity|]. split; reflexivity. }
  assert (H2 : requested_size argv > max_alloc_size (free_memory rt))
    by reflexivity.
  split; [exact H1 | split; [exact H2|]].
  exact (proj1 (proj1 (proj2 (report_lines rt argv H1)) H2)).
Defined.

(** X18.  A run never asks for more than the free memory it read:
    whatever the arguments, the size passed to [cudaMalloc] is at most
    [free_memory]. *)
Theorem allocation_fits_free_memory (rt : Runtime) (argv : list string) :
  alloc_size rt argv <= free_memory rt
  /\ forall c, In (CallMalloc c) (trace (main rt argv)) -> 0 <= c <= free_memory rt.
Proof.
  assert (Hrange : 0 <= free_memory rt < 2 ^ 64).
  { unfold free_memory, Int.to_size_t, Int.unsigned.
    apply Z.mod_pos_bound. reflexivity. }
  assert (Hsize : 0 <= alloc_size rt argv <= free_memory rt).
  { pose proof (requested_size_range argv) as Hreq.
    unfold alloc_size, effective_size.
    destruct (Z.eq_dec (free_memory rt) 0) as [E|E].
    - rewrite E. change (max_alloc_size 0) with 0.
      destruct (Z.gtb_spec (requested_size argv) 0); lia.
    - destruct (max_alloc_size_range (free_memory rt) ltac:(lia)) as [_ Hc].
      destruct (Z.gtb_spec (requested_size argv)
                           (max_alloc_size (free_memory rt))); lia. }
  split; [lia|].
  intros c Hin. apply (In_calls (CallMalloc c) _ eq_refl) in Hin.
  rewrite calls_of_main in Hin.
  destruct (help_requested argv); [destruct Hin|].
  destruct (checkCmdLineFlag argv "device"); [|destruct Hin].
  cbn [negb] in Hin.
  destruct (cudaSetDevice rt (devID argv) =? cudaSuccess);
    [|destruct Hin as [H|[]]; discriminate H].
  cbv zeta in Hin. cbn [negb] in Hin.
  destruct Hin as [H|[H|[H|Hin]]]; try discriminate H.
  - injection H as <-. exact Hsize.
  - destruct (fst (cudaMalloc rt (alloc_size rt argv)) =? cudaSuccess);
      [destruct (cudaMemset rt (d_A rt argv) 15 (alloc_size rt argv) =? cudaSuccess);
       [destruct (cudaFree rt (d_A rt argv) =? cudaSuccess)|]|];
      cbn [negb] in Hin;
      repeat (destruct Hin as [H|Hin]; [discriminate H|]); destruct Hin.
Qed.

Lemma allocation_fits_free_memory_witness :
  let rt := healthy_runtime 3000000000 16000000000 in
  let argv := ["cudaMemTest"; "--device=0"; "--alloc_mem_gb=4"] in
  In (CallMalloc 2700000000) (trace (main rt argv))
  /\ 0 <= 2700000000 <= free_memory rt.
Proof.
  intros rt argv.
  assert (H : In (CallMalloc 2700000000) (trace (main rt argv)))
    by (vm_compute; tauto).
  split; [exact H|].
  exact (proj2 (allocation_fits_free_memory rt argv) 2700000000 H).
Defined.

(** *** Values that are not numbers *)

Lemma atoi_not_a_number (c : ascii) (v : string) :
  isdigit c = false -> isspace c = false ->
  Ascii.eqb c "-" = false -> Ascii.eqb c "+" = false ->
  atoi (String c v) = 0.
Proof.
  intros Hd Hs Hm Hp. unfold atoi, strtol. cbn [skip_spaces]. rewrite Hs.
  destruct c as [b0 b1 b2 b3 b4 b5 b6 b7].
  assert (Hdig : digits_value (String (Ascii b0 b1 b2 b3 b4 b5 b6 b7) v) 0 = 0)
    by (cbn [digits_value]; now rewrite Hd).
  destruct b0, b1, b2, b3, b4, b5, b6, b7;
    try discriminate Hm; try discriminate Hp; rewrite Hdig; reflexivity.
Qed.

(** X19.  A value that is not a number reads as 0 without any complaint:
    when the text after [=] is empty or starts with a character that is
    neither a digit, a sign nor white space, [getCmdLineArgumentInt] returns
    0, so [--device=abc] stands for device 0. *)
Theorem malformed_value_reads_as_zero
    (prog : string) (args : list string) (string_ref name : string)
    (k : nat) (c : ascii) (v : string) :
  lower name = lower string_ref ->
  (1 <= String.length string_ref)%nat ->
  count_leading "-" string_ref = O ->
  isdigit c = false -> isspace c = false ->
  Ascii.eqb c "-" = false -> Ascii.eqb c "+" = false ->
  getCmdLineArgumentInt (prog :: args ++ [dashes k ++ name ++ "="]) string_ref = 0
  /\ getCmdLineArgumentInt
       (prog :: args ++ [dashes k ++ name ++ String "=" (String c v)]) string_ref
     = 0.
Proof.
  intros Hl Hlen Hdash Hd Hs Hm Hp.
  pose proof (lower_length_eq _ _ Hl) as Hn.
  split.
  - rewrite (last_match_value prog args [] string_ref name "=" k Hl Hlen Hdash).
    + reflexivity.
    + right. cbn [String.length]. lia.
    + intros arg [].
  - rewrite (last_match_value prog args [] string_ref name
               (String "=" (String c v)) k Hl Hlen Hdash).
    + cbn [value_after Ascii.eqb Bool.eqb]. now apply atoi_not_a_number.
    + right. cbn [String.length]. lia.
    + intros arg [].
Qed.

Lemma malformed_value_reads_as_zero_witness :
  lower "device" = lower "device"
  /\ isdigit "a" = false
  /\ getCmdLineArgumentInt
       ("cudaMemTest" :: [] ++ [dashes 2 ++ "device" ++ String "=" (String "a" "bc")])
       "device" = 0.
Proof.
  split; [reflexivity | split; [reflexivity|]].
  exact (proj2 (malformed_value_reads_as_zero
                  "cudaMemTest" [] "device" "device" 2 "a" "bc"
                  eq_refl ltac:(simpl; lia) eq_refl
                  eq_refl eq_refl eq_refl eq_refl)).
Defined.
